(** * A shallow embedding of bulk_extractor's image readers and scanners

    The development follows [image_process.cpp] (raw and split-raw sources,
    the source factory), [pcap_writer.cpp], [scan_facebook.cpp] and
    [scan_windirs.cpp].  Integers are [Z]; where the C++ code wraps around
    (uint64_t, int) the wrap is written out. *)

From Stdlib Require Import ZArith List String Ascii Bool Lia.
Import ListNotations.
Open Scope Z_scope.

(** ** Machine integers *)

Definition u64 (x : Z) : Z := x mod 2 ^ 64.

(** [(int)] conversion of an [ssize_t]: two's complement, 32 bits. *)
Definition int_of_ssize (x : Z) : Z :=
  let m := x mod 2 ^ 32 in if 2 ^ 31 <=? m then m - 2 ^ 32 else m.

(** ** Exceptions and the error monad *)

Inductive exn :=
| NoSuchFile (what : string)
| NoSupport (what : string)
| RuntimeError (what : string)
| EndOfImage
| ReadError
| RangeException
| BadAlloc
(** behaviour the C++ standard leaves undefined *)
| Undefined (what : string).

Inductive result (A : Type) :=
| Ok (a : A)
| Err (e : exn).
Arguments Ok {A} a.
Arguments Err {A} e.

Definition bind {A B} (m : result A) (f : A -> result B) : result B :=
  match m with Ok a => f a | Err e => Err e end.

Notation "x <- m ;; k" := (bind m (fun x => k))
  (at level 61, m at next level, right associativity).
Notation "' p <- m ;; k" := (bind m (fun x => match x with p => k end))
  (at level 61, p pattern, m at next level, right associativity).

(** ** The file system seen by the program

    A path maps to a regular file (its size and its bytes) or to a
    directory (the names of its entries). *)

Inductive node :=
| NFile (size : N) (data : Z -> Z)
| NDir (children : list string).

Definition filesystem := list (string * node).

Fixpoint fs_lookup (fs : filesystem) (p : string) : option node :=
  match fs with
  | [] => None
  | (q, n) :: fs' => if String.eqb q p then Some n else fs_lookup fs' p
  end.

(** [std::filesystem::file_size]: throws unless [p] is a regular file. *)
Definition file_size (fs : filesystem) (p : string) : result Z :=
  match fs_lookup fs p with
  | Some (NFile sz _) => Ok (Z.of_N sz)
  | _ => Err (RuntimeError "file_size")
  end.

(** [access(p, R_OK) == 0]. *)
Definition access_ok (fs : filesystem) (p : string) : bool :=
  match fs_lookup fs p with Some _ => true | None => false end.

(** [::open(p, O_RDONLY)]: a positive descriptor, or -1. *)
Definition os_open (fs : filesystem) (p : string) : Z :=
  match fs_lookup fs p with Some _ => 3 | None => -1 end.

(** ** String helpers ([std::string::rfind], [substr], [replace]) *)

Fixpoint prefix_at (pat s : list ascii) : bool :=
  match pat, s with
  | [], _ => true
  | a :: pat', b :: s' => Ascii.eqb a b && prefix_at pat' s'
  | _ :: _, [] => false
  end.

(** Last position at which [pat] occurs in [s]. *)
Fixpoint rfind_aux (pat s : list ascii) (i : nat) (best : option nat) : option nat :=
  match s with
  | [] => if prefix_at pat [] then Some i else best
  | _ :: s' =>
      rfind_aux pat s' (S i) (if prefix_at pat s then Some i else best)
  end.

Definition rfind (pat s : string) : option nat :=
  rfind_aux (list_ascii_of_string pat) (list_ascii_of_string s) 0 None.

Definition ends_with (s suffix : string) : bool :=
  let n := String.length s in
  let k := String.length suffix in
  if Nat.ltb n k then false else String.eqb (substring (n - k) k s) suffix.

Definition digit_value (c : ascii) : Z := Z.of_nat (nat_of_ascii c) - 48.

(** [atoi] of a string of decimal digits. *)
Definition atoi_digits (s : string) : Z :=
  fold_left (fun acc c => 10 * acc + digit_value c) (list_ascii_of_string s) 0.

Fixpoint decimal_aux (fuel : nat) (n : Z) (acc : string) : string :=
  match fuel with
  | O => acc
  | S f =>
      let acc' := String (ascii_of_nat (Z.to_nat (48 + n mod 10))) acc in
      if n <? 10 then acc' else decimal_aux f (n / 10) acc'
  end.

(** [std::to_string] / [%d] of a non-negative integer. *)
Definition decimal (n : Z) : string := decimal_aux 64 n EmptyString.

Fixpoint zeros (k : nat) : string :=
  match k with O => EmptyString | S k' => String "0" (zeros k') end.

(** [%03d]. *)
Definition fmt03 (n : Z) : string :=
  let d := decimal n in (zeros (3 - String.length d) ++ d)%string.

(** ** Split raw images: [process_raw] *)

Record file_info := mk_file_info {
  fi_name : string;
  fi_offset : Z;
  fi_length : Z
}.

Record process_raw := mk_process_raw {
  image_fname : string;
  pagesize : Z;
  margin : Z;
  file_list : list file_info;
  raw_filesize : Z;
  current_file_name : string;
  current_fd : Z
}.

Definition process_raw_new (fname : string) (pagesize_ margin_ : Z) : process_raw :=
  mk_process_raw fname pagesize_ margin_ [] 0 EmptyString (-1).

Definition set_file_list (p : process_raw) (l : list file_info) (sz : Z) :=
  mk_process_raw (image_fname p) (pagesize p) (margin p) l sz
                 (current_file_name p) (current_fd p).

Definition set_current (p : process_raw) (name : string) (fd : Z) :=
  mk_process_raw (image_fname p) (pagesize p) (margin p) (file_list p)
                 (raw_filesize p) name fd.

(** [process_raw::add_file] (the non-Windows build). *)
Definition add_file (fs : filesystem) (p : process_raw) (fname : string)
  : result process_raw :=
  fname_filesize <- file_size fs fname ;;
  Ok (set_file_list p
        (file_list p ++ [mk_file_info fname (raw_filesize p) fname_filesize])
        (raw_filesize p + fname_filesize)).

(** [process_raw::find_offset]: the first segment holding [pos]. *)
Fixpoint find_offset (l : list file_info) (pos : Z) : option file_info :=
  match l with
  | [] => None
  | fi :: l' =>
      if (fi_offset fi <=? pos) && (pos <? fi_offset fi + fi_length fi)
      then Some fi else find_offset l' pos
  end.

Definition is_multipart_file (fn : string) : bool :=
  ends_with fn ".000" || ends_with fn ".001" || ends_with fn "001.vmdk".

(** [make_list_template]: [path] with its last ["000"] (or, failing that,
    its last ["001"]) replaced by the [printf] format ["%03d"], and the start
    counter [atoi] of the replaced digits plus one.  On a multipart name one
    of the two is found (the source asserts it). *)
Definition make_list_template (path : string) : string * Z :=
  let p := match rfind "000" path with
           | Some p => p
           | None => match rfind "001" path with Some p => p | None => 0%nat end
           end in
  ((substring 0 p path ++ "%03d" ++
    substring (p + 3) (String.length path - (p + 3)) path)%string,
   atoi_digits (substring p 3 path) + 1).

Definition percent : ascii := "%".

(** Modelled from the C library: the text [printf] produces for the format
    [fmt] and at most one [int] argument [arg] (consumed by the first
    conversion), for the conversions a template can hold: [%%] prints [%]
    and [%03d] prints the argument.  Any other conversion, or a conversion
    left without an argument, is undefined behaviour: [None]. *)
Fixpoint format_int (fmt : string) (arg : option Z) : option string :=
  match fmt with
  | EmptyString => Some EmptyString
  | String c rest =>
      if Ascii.eqb c percent then
        match rest with
        | EmptyString => None
        | String c2 rest2 =>
            if Ascii.eqb c2 percent then option_map (String percent) (format_int rest2 arg)
            else match rest2 with
                 | String c3 (String c4 rest4) =>
                     if Ascii.eqb c2 "0" && Ascii.eqb c3 "3" && Ascii.eqb c4 "d" then
                       match arg with
                       | Some n => option_map (append (fmt03 n)) (format_int rest4 None)
                       | None => None
                       end
                     else None
                 | _ => None
                 end
        end
      else option_map (String c) (format_int rest arg)
  end.

(** [PATH_MAX] on Linux. *)
Definition PATH_MAX : Z := 4096.

(** Modelled from the C library: [snprintf(buf, size, fmt, n)] leaves in
    [buf] the first [size - 1] characters of the formatted text. *)
Definition snprintf_int (size : Z) (fmt : string) (n : Z) : option string :=
  option_map (substring 0 (Z.to_nat (size - 1))) (format_int fmt (Some n)).

(** [snprintf(probename, sizeof(probename), templ.c_str(), num)] with
    [char probename[PATH_MAX]]. *)
Definition probe_name (templ : string) (num : Z) : option string :=
  snprintf_int PATH_MAX templ num.

(** Whether a string holds no [%]. *)
Fixpoint no_percent (s : string) : bool :=
  match s with
  | EmptyString => true
  | String c s' => negb (Ascii.eqb c percent) && no_percent s'
  end.

(** The probing loop of [process_raw::open].  Every successful probe adds a
    distinct name present in [fs], so [List.length fs] rounds reach a missing
    name. *)
Fixpoint probe_loop (fuel : nat) (fs : filesystem) (templ : string) (num : Z)
         (p : process_raw) : result process_raw :=
  match fuel with
  | O => Ok p
  | S f =>
      match probe_name templ num with
      | None => Err (Undefined "snprintf: conversion without a matching argument")
      | Some probename =>
          if negb (access_ok fs probename) then Ok p
          else p' <- add_file fs p probename ;; probe_loop f fs templ (num + 1) p'
      end
  end.

(** [process_raw::open]. *)
Definition process_raw_open (fs : filesystem) (p : process_raw) : result process_raw :=
  p1 <- add_file fs p (image_fname p) ;;
  if is_multipart_file (image_fname p) then
    let '(templ, num) := make_list_template (image_fname p) in
    probe_loop (List.length fs) fs templ num p1
  else Ok p1.

Definition image_size (p : process_raw) : Z := raw_filesize p.

(** The caller's buffer: memory as a function from addresses to bytes. *)
Definition memory := Z -> Z.

(** [memcpy(buf + dst, src + local, k)]. *)
Definition mem_copy (buf : memory) (dst k : Z) (src : Z -> Z) (local : Z) : memory :=
  fun j => if (dst <=? j) && (j <? dst + k) then src (local + (j - dst)) else buf j.

(** [::pread64(current_fd, buf + dst, bytes, local)] on the file the
    descriptor was opened on: copies the bytes that exist and returns their
    count, or -1. *)
Definition os_pread64 (fs : filesystem) (p : process_raw) (buf : memory)
           (dst bytes local : Z) : Z * memory :=
  if current_fd p <? 0 then (-1, buf) else
  match fs_lookup fs (current_file_name p) with
  | Some (NFile size data) =>
      let size := Z.of_N size in
      let k := if local <? size then Z.min bytes (size - local) else 0 in
      (k, mem_copy buf dst k data local)
  | _ => (-1, buf)
  end.

(** [process_raw::pread].  A call moves to a later segment at each
    recursion, so [S (length file_list)] rounds suffice. *)
Fixpoint pread_fuel (fuel : nat) (fs : filesystem) (p : process_raw)
         (buf : memory) (dst bytes offset : Z) : result (process_raw * Z * memory) :=
  match fuel with
  | O => Ok (p, 0, buf)
  | S fuel' =>
      match find_offset (file_list p) offset with
      | None => Ok (p, 0, buf)                       (* nothing to read *)
      | Some fi =>
          p' <- (if String.eqb (fi_name fi) (current_file_name p) then Ok p
                 else let fd := os_open fs (fi_name fi) in
                      if fd <=? 0
                      then Err (NoSuchFile "pread: Cannot ::open file")
                      else Ok (set_current p (fi_name fi) fd)) ;;
          let '(bytes_read, buf1) := os_pread64 fs p' buf dst bytes (offset - fi_offset fi) in
          if bytes_read <? 0 then Err (NoSuchFile "pread64: READ LESS THAN 0 BYTES")
          else if bytes_read =? bytes then Ok (p', bytes_read, buf1)
          else
            '(p2, bytes_read2, buf2) <-
              pread_fuel fuel' fs p' buf1 (dst + bytes_read) (bytes - bytes_read)
                         (offset + bytes_read) ;;
            if bytes_read2 <? 0 then Ok (p2, -1, buf2)   (* error on second read *)
            else if bytes_read =? 0 then Ok (p2, 0, buf2) (* kind of odd *)
            else Ok (p2, bytes_read + bytes_read2, buf2)
      end
  end.

Definition pread (fs : filesystem) (p : process_raw) (buf : memory)
           (dst bytes offset : Z) : result (process_raw * Z * memory) :=
  pread_fuel (S (List.length (file_list p))) fs p buf dst bytes offset.

(** ** Iterators and page buffers *)

Record iterator := mk_iterator {
  raw_offset : Z;
  file_number : Z;
  eof : bool
}.


Record sbuf := mk_sbuf {
  sb_pos0 : Z;
  sb_bufsize : Z;
  sb_pagesize : Z;
  sb_buf : memory
}.

(** [process_raw::sbuf_alloc].  [sbuf_malloc_ok count] says whether
    [sbuf_t::sbuf_malloc(get_pos0(it), count, this_pagesize)] can allocate
    the [count]-byte buffer (modelled from the spec: be13_api, not among the
    sources, allocates a fresh buffer and throws [std::bad_alloc] when it
    cannot).  The fresh buffer starts as zeros; only the bytes the read
    fills are used.  The iterator's [eof] flag set before [EndOfImage] is
    thrown is not returned. *)
Definition sbuf_alloc (sbuf_malloc_ok : Z -> bool) (fs : filesystem) (p : process_raw)
           (it : iterator) : result (process_raw * sbuf) :=
  let count := u64 (pagesize p + margin p) in
  let this_pagesize := pagesize p in
  let count := if raw_filesize p <? u64 (raw_offset it + count)
               then u64 (raw_filesize p - raw_offset it) else count in
  let this_pagesize := if count <? this_pagesize then count else this_pagesize in
  if negb (sbuf_malloc_ok count) then Err BadAlloc else
  '(p', ret, buf) <- pread fs p (fun _ => 0) 0 count (raw_offset it) ;;
  let count_read := int_of_ssize ret in
  if count_read =? 0 then Err EndOfImage
  else if count_read <? 0 then Err ReadError
  else Ok (p', mk_sbuf (raw_offset it) count this_pagesize buf).


(** A split image of three 1 MiB parts [img.000], [img.001], [img.002]. *)
Definition split_fs (d0 d1 d2 : Z -> Z) : filesystem :=
  [("img.000"%string, NFile (2 ^ 20)%N d0);
   ("img.001"%string, NFile (2 ^ 20)%N d1);
   ("img.002"%string, NFile (2 ^ 20)%N d2)].

(** The shape [process_raw::add_file] gives the segment list: each segment
    starts where the previous one ends, the first at [start]. *)
Fixpoint contiguous_from (start : Z) (l : list file_info) : Prop :=
  match l with
  | [] => True
  | fi :: l' =>
      fi_offset fi = start /\ 0 <= fi_length fi /\
      contiguous_from (start + fi_length fi) l'
  end.

Definition total_length (l : list file_info) : Z :=
  fold_right (fun fi acc => fi_length fi + acc) 0 l.

Definition seg_contains (fi : file_info) (o : Z) : Prop :=
  fi_offset fi <= o < fi_offset fi + fi_length fi.

(** An iterator at the start of an image. *)
Definition iterator_begin : iterator := mk_iterator 0 0 false.

(** A one-file raw image [img.raw] of [size] bytes, already opened. *)
Definition raw_opened (size ps mg : Z) : process_raw :=
  set_file_list (process_raw_new "img.raw" ps mg) [mk_file_info "img.raw" 0 size] size.

(** ** The pcap writer: [pcap_writer::pcap_writepkt] *)

(** Modelled from the spec: [pcap_write4] and [pcap_write2] (declared in
    [pcap_writer.h], not in the sources) write the low 4 or 2 bytes of their
    argument, little-endian (§6, "little-endian on all platforms"). *)
Definition le_bytes (n : nat) (x : Z) : list Z :=
  map (fun i => Z.land (Z.shiftr x (8 * Z.of_nat i)) 255) (seq 0 n).

Definition pcap_write4 (x : Z) : list Z := le_bytes 4 x.
Definition pcap_write2 (x : Z) : list Z := le_bytes 2 x.

Definition ETHER_HEAD_LEN : Z := 14.
Definition DLT_EN10MB : Z := 1.

Record pcap_hdr := mk_pcap_hdr {
  seconds : Z;
  useconds : Z;
  cap_len : Z;
  pkt_len : Z
}.

(** The writer: whether [outpath] can be opened for writing, and the bytes
    of the output file once it is open ([fcap != 0]). *)
Record pcap_writer := mk_pcap_writer {
  outpath_writable : bool;
  fcap : option (list Z)
}.

(** Modelled from the spec: [sbuf_t::write(f, pos, len)] (be13_api) copies
    the packet bytes [pos .. pos + len) of the buffer to the file, clipped
    to the buffer. *)
Definition sbuf_write (sb : sbuf) (pos len : Z) : list Z :=
  let len := if sb_bufsize sb <=? pos then 0 else Z.min len (sb_bufsize sb - pos) in
  map (fun i => sb_buf sb (pos + Z.of_nat i)) (seq 0 (Z.to_nat len)).

Section PcapWriter.

(** [PCAP_MAX_PKT_LEN] comes from [pcap_writer.h]; every statement below holds
    for any value of it. *)
Variable PCAP_MAX_PKT_LEN : Z.

(** The libpcap global header written when the file is created. *)
Definition pcap_global_header : list Z :=
  pcap_write4 2712847316 ++       (* 0xa1b2c3d4 *)
  pcap_write2 2 ++ pcap_write2 4 ++ pcap_write4 0 ++ pcap_write4 0 ++
  pcap_write4 PCAP_MAX_PKT_LEN ++ pcap_write4 DLT_EN10MB.

Definition pcap_writepkt (w : pcap_writer) (h : pcap_hdr) (sb : sbuf) (pos : Z)
           (add_frame : bool) (frame_type : Z) : result pcap_writer :=
  f <- match fcap w with
       | Some f => Ok f
       | None => if outpath_writable w then Ok pcap_global_header
                 else Err (RuntimeError "scan_net.cpp: cannot open for writing")
       end ;;
  let add_frame_and_safe :=
    add_frame && (cap_len h + ETHER_HEAD_LEN <=? PCAP_MAX_PKT_LEN) in
  let forged_header_len := if add_frame_and_safe then ETHER_HEAD_LEN else 0 in
  let forged_header :=
    repeat 0 12 ++ [Z.land (Z.shiftr frame_type 8) 255; Z.land frame_type 255] in
  Ok (mk_pcap_writer (outpath_writable w)
        (Some (f ++ pcap_write4 (seconds h) ++ pcap_write4 (useconds h) ++
               pcap_write4 (cap_len h + forged_header_len) ++
               pcap_write4 (pkt_len h + forged_header_len) ++
               (if add_frame_and_safe then forged_header else []) ++
               sbuf_write sb pos (cap_len h)))).

End PcapWriter.

(** A page holding a 60-byte raw IPv4 packet at offset 100. *)
Definition ipv4_page : sbuf :=
  mk_sbuf 0 4096 4096 (fun i => if i =? 100 then 69 else i mod 256).

Definition ipv4_hdr : pcap_hdr := mk_pcap_hdr 1000 0 60 60.

Definition fresh_writer : pcap_writer := mk_pcap_writer true None.

(** A one-file raw image of exactly 4 GiB. *)
Definition fs_4gib : filesystem := [("img.raw"%string, NFile (2 ^ 32)%N (fun _ => 7))].

(** ** The source factory: [image_process::open] *)

(** [image_process::filename_extension]: the text after the last ['.'] of
    the whole path, or [""]. *)
Definition filename_extension (fn : string) : string :=
  match rfind "." fn with
  | None => EmptyString
  | Some d => substring (S d) (String.length fn - S d) fn
  end.

(** [::tolower] in the C locale. *)
Definition tolower (c : ascii) : ascii :=
  let n := nat_of_ascii c in
  if (65 <=? n)%nat && (n <=? 90)%nat then ascii_of_nat (n + 32) else c.

Definition lowercase (s : string) : string :=
  string_of_list_ascii (map tolower (list_ascii_of_string s)).

(** [s.find(pat) != std::string::npos]. *)
Definition contains (s pat : string) : bool :=
  match rfind pat s with Some _ => true | None => false end.

(** The last component of a path. *)
Definition path_filename (p : string) : string :=
  match rfind "/" p with
  | None => p
  | Some i => substring (S i) (String.length p - S i) p
  end.

(** [std::filesystem::path::extension]: from the last ['.'] of the file
    name on, except for ["."], [".."] and names whose only dot leads. *)
Definition path_extension (p : string) : string :=
  let f := path_filename p in
  if String.eqb f "." || String.eqb f ".." then EmptyString
  else match rfind "." f with
       | None | Some O => EmptyString
       | Some i => substring i (String.length f - i) f
       end.

(** [dir / name]. *)
Definition path_join (dir name : string) : string :=
  if ends_with dir "/" then (dir ++ name)%string else (dir ++ "/" ++ name)%string.

(** The body of [std::quoted(s)]: each double quote and each backslash of
    [s] preceded by a backslash. *)
Fixpoint quote_escape (s : string) : string :=
  match s with
  | EmptyString => EmptyString
  | String c s' =>
      if Ascii.eqb c (ascii_of_nat 34) || Ascii.eqb c (ascii_of_nat 92)
      then String (ascii_of_nat 92) (String c (quote_escape s'))
      else String c (quote_escape s')
  end.

(** [operator<<] on a [std::filesystem::path] prints [std::quoted] of its
    string: the escaped string between double quotes. *)
Definition quoted (s : string) : string :=
  String (ascii_of_nat 34) (quote_escape s ++ String (ascii_of_nat 34) EmptyString).

(** The regular files met by [std::filesystem::recursive_directory_iterator],
    in iteration order (the order of the directory listings); [fuel] bounds
    the depth. *)
Fixpoint walk (fuel : nat) (fs : filesystem) (dir : string) : list string :=
  match fuel with
  | O => []
  | S f =>
      match fs_lookup fs dir with
      | Some (NDir cs) =>
          flat_map (fun c =>
                      let q := path_join dir c in
                      match fs_lookup fs q with
                      | Some (NFile _ _) => [q]
                      | Some (NDir _) => walk f fs q
                      | None => []
                      end) cs
      | _ => []
      end
  end.

(** The sources the factory builds. *)
Inductive image_source :=
| SrcRaw (p : process_raw)
| SrcEwf (fn : string)
| SrcDir (dir : string) (files : list string).

(** The extensions the directory guard refuses. *)
Definition is_part_extension (e : string) : bool :=
  String.eqb e ".E01" || String.eqb e ".000" || String.eqb e ".001".

(** What the guard prints on [std::cerr] for the offending entry [p] of [fn]. *)
Definition dir_of_parts_message (p fn : string) : list string :=
  [("error: file " ++ quoted p ++ " is in directory " ++ quoted fn)%string;
   "       The -R option is not for reading a directory of EnCase files"%string;
   "       or a directory of disk image parts. Please process these"%string;
   "       as a single disk image. If you need to process these files"%string;
   ("       then place them in a sub directory of " ++ quoted fn)%string].

Section Factory.

(** Whether the build has [HAVE_LIBEWF], and the outcome of constructing and
    opening a [process_ewf] (its return code, or the exception it throws). *)
Variable have_libewf : bool.
Variable ewf_open : string -> result Z.

(** [image_process::open] (the non-Windows build): the lines written to
    [std::cerr], and the source or the exception. *)
Definition image_process_open (fs : filesystem) (fn : string) (opt_recurse : bool)
           (pagesize_ margin_ : Z) : list string * result image_source :=
  let ext := filename_extension fn in
  match fs_lookup fs fn with
  | None => ([], Err (NoSuchFile fn))
  | Some (NDir cs) =>
      if negb opt_recurse then
        ([("error: " ++ fn ++ " is a directory but -R (opt_recurse) not set")%string],
         Err (NoSuchFile fn))
      else
        match find (fun c => is_part_extension (path_extension (path_join fn c))) cs with
        | Some c => (dir_of_parts_message (path_join fn c) fn, Err (NoSuchFile fn))
        | None => ([], Ok (SrcDir fn (walk (List.length fs) fs fn)))
        end
  | Some (NFile _ _) =>
      let ext := lowercase ext in
      if String.eqb ext "e01" || contains fn ".E01." then
        if have_libewf then
          match ewf_open fn with
          | Ok 0 => ([], Ok (SrcEwf fn))
          | Ok _ => ([], Err (NoSuchFile fn))
          | Err e => ([], Err e)
          end
        else ([], Err (NoSupport "This program was compiled without E01 support"))
      else
        match process_raw_open fs (process_raw_new fn pagesize_ margin_) with
        | Ok p => ([], Ok (SrcRaw p))
        | Err e => ([], Err e)
        end
  end.

End Factory.

(** A directory [d] holding the first segment of an EnCase image. *)
Definition fs_e01_dir : filesystem :=
  [("d"%string, NDir ["image.E01"%string]);
   ("d/image.E01"%string, NFile 1024%N (fun _ => 0))].

(** ** FAT directory entries: [valid_fat_directory_entry] ([scan_windirs.cpp]) *)

(** Modelled from the spec: the Sleuth Kit macros of [tsk3_fatdirs.h]
    (not among the sources): attribute bits, the time and date fields and
    their range checks, and the characters allowed in 8.3 names. *)
Definition FATFS_ATTR_VOLUME : Z := 8.
Definition FATFS_ATTR_LFN : Z := 15.
Definition FATFS_ATTR_DIRECTORY : Z := 16.
Definition FATFS_ATTR_ARCHIVE : Z := 32.
Definition FATFS_ATTR_ALL : Z := 63.
Definition FATFS_YEAR_MASK : Z := 65024.
Definition FATFS_YEAR_SHIFT : Z := 9.

Definition FATFS_SEC (t : Z) : Z := Z.land t 31.
Definition FATFS_MIN (t : Z) : Z := Z.shiftr (Z.land t 2016) 5.
Definition FATFS_HOUR (t : Z) : Z := Z.shiftr (Z.land t 63488) 11.
Definition FATFS_DAY (d : Z) : Z := Z.land d 31.
Definition FATFS_MON (d : Z) : Z := Z.shiftr (Z.land d 480) 5.

Definition FATFS_ISTIME (t : Z) : bool :=
  negb ((30 <? FATFS_SEC t) || (59 <? FATFS_MIN t) || (23 <? FATFS_HOUR t)).

Definition FATFS_ISDATE (d : Z) : bool :=
  negb ((d =? 0) || (31 <? FATFS_DAY d) || (FATFS_DAY d <? 1) ||
        (12 <? FATFS_MON d) || (FATFS_MON d <? 1)).

Definition FATFS_IS_83_NAME (c : Z) : bool :=
  negb ((c <? 32) || (c =? 34) || ((42 <=? c) && (c <=? 44)) || (c =? 46) ||
        (c =? 47) || ((58 <=? c) && (c <=? 63)) || ((91 <=? c) && (c <=? 93)) ||
        (c =? 124)).

Definition FATFS_IS_83_EXT (c : Z) : bool := FATFS_IS_83_NAME c && (c <? 127).

(** The byte at offset [i] of an entry; the entry has 32 bytes. *)
Definition byte_at (b : list Z) (i : nat) : Z := nth i b 0.

(** Modelled from the spec: [fat16int] and [fat32int] read little-endian
    fields; [fat32int(hi, lo)] joins two 16-bit halves. *)
Definition fat16int (b : list Z) (i : nat) : Z :=
  byte_at b i + 256 * byte_at b (S i).
Definition fat32int (b : list Z) (i : nat) : Z :=
  fat16int b i + 65536 * fat16int b (i + 2).
Definition fat32int2 (b : list Z) (hi lo : nat) : Z :=
  fat16int b lo + 65536 * fat16int b hi.

(** Offsets of the fields of [fatfs_dentry]. *)
Definition DE_ATTRIB : nat := 11.
Definition DE_CTIMETEN : nat := 13.
Definition DE_CTIME : nat := 14.
Definition DE_CDATE : nat := 16.
Definition DE_ADATE : nat := 18.
Definition DE_HIGHCLUST : nat := 20.
Definition DE_WTIME : nat := 22.
Definition DE_WDATE : nat := 24.
Definition DE_STARTCLUST : nat := 26.
Definition DE_SIZE : nat := 28.

Definition isupper (c : Z) : bool := (65 <=? c) && (c <=? 90).
Definition isdigit (c : Z) : bool := (48 <=? c) && (c <=? 57).

(** The character test of the last two loops of [valid_fat_dentry_name]. *)
Definition fat_name_char_ok (ch : Z) : bool :=
  isupper ch || isdigit ch || existsb (Z.eqb ch)
    [32; 33; 35; 36; 37; 38; 39; 40; 41; 45; 64; 94; 95; 96; 123; 125; 126].

(** [for (...) { if (ch==0 || ch==' ') break; if (!ok) return false; }] *)
Fixpoint fat_chars_ok (l : list Z) : bool :=
  match l with
  | [] => true
  | ch :: l' =>
      if (ch =? 0) || (ch =? 32) then true
      else if fat_name_char_ok ch then fat_chars_ok l' else false
  end.

Fixpoint zlist_eqb (l1 l2 : list Z) : bool :=
  match l1, l2 with
  | [], [] => true
  | a :: l1', b :: l2' => (a =? b) && zlist_eqb l1' l2'
  | _, _ => false
  end.

Definition valid_fat_dentry_name (name ext : list Z) : bool :=
  if zlist_eqb name [46; 32; 32; 32; 32; 32; 32; 32] &&
     zlist_eqb ext [32; 32; 32] then true
  else if zlist_eqb name [46; 46; 32; 32; 32; 32; 32; 32] &&
          zlist_eqb ext [32; 32; 32] then true
  else if negb (forallb FATFS_IS_83_NAME name) then false
  else if negb (forallb FATFS_IS_83_EXT ext) then false
  else if negb (fat_chars_ok name) then false
  else fat_chars_ok ext.

Inductive fat_validation_t :=
| INVALID
| VALID_DENTRY
| VALID_LFN
| VALID_LAST_DENTRY
| ALL_NULL.

(** The scanner's tuning parameters. *)
Record fat_config := mk_fat_config {
  opt_weird_file_size : Z;
  opt_weird_file_size2 : Z;
  opt_weird_cluster_count : Z;
  opt_weird_cluster_count2 : Z;
  opt_max_bits_in_attrib : Z;
  opt_max_weird_count : Z;
  opt_last_year : Z
}.

Definition CLUSTERS_IN_1GiB : Z := 2 * 1024 * 1024.

(** The defaults; [opt_last_year] is set at start-up from the clock. *)
Definition default_fat_config (last_year : Z) : fat_config :=
  mk_fat_config (1024 * 1024 * 150) (1024 * 1024 * 512)
                (32 * CLUSTERS_IN_1GiB) (128 * CLUSTERS_IN_1GiB) 3 2 last_year.

Definition fat_year (f : Z) : Z :=
  Z.shiftr (Z.land f FATFS_YEAR_MASK) FATFS_YEAR_SHIFT + 1980.

(** [count_bits], the 32-bit population count. *)
Definition u32 (x : Z) : Z := x mod 2 ^ 32.
Definition count_bits (x : Z) : Z :=
  let x := u32 (x - Z.land (Z.shiftr x 1) 1431655765) in
  let x := u32 (Z.land x 858993459 + Z.land (Z.shiftr x 2) 858993459) in
  let x := Z.land (u32 (x + Z.shiftr x 4)) 252645135 in
  let x := u32 (x + Z.shiftr x 8) in
  let x := u32 (x + Z.shiftr x 16) in
  Z.land x 63.

(** The weirdness count of an entry, computed as the function computes it
    once the entry has passed the earlier checks. *)
Definition fat_weird_count (cfg : fat_config) (b : list Z) : Z :=
  let cdate := fat16int b DE_CDATE in
  let adate := fat16int b DE_ADATE in
  let wdate := fat16int b DE_WDATE in
  let size := fat32int b DE_SIZE in
  let clust := fat32int2 b DE_HIGHCLUST DE_STARTCLUST in
  let ctimeten := byte_at b DE_CTIMETEN in
  let attrib := byte_at b DE_ATTRIB in
  (if opt_last_year cfg <? fat_year cdate then 1 else 0) +
  (if opt_last_year cfg <? fat_year adate then 1 else 0) +
  (if opt_weird_file_size cfg <? size then 1 else 0) +
  (if opt_weird_file_size2 cfg <? size then 1 else 0) +
  (if opt_max_bits_in_attrib cfg <? count_bits attrib then 1 else 0) +
  (if opt_weird_cluster_count cfg <? clust then 1 else 0) +
  (if opt_weird_cluster_count2 cfg <? clust then 1 else 0) +
  (if negb (ctimeten =? 0) && negb (ctimeten =? 100) then 1 else 0) +
  (if (adate =? 0) && (cdate =? 0) then 1 else 0) +
  (if (adate =? 0) && (wdate =? 0) then 1 else 0).

(** [sbuf.is_constant(sbuf[0])]. *)
Definition is_constant (b : list Z) : bool :=
  forallb (Z.eqb (byte_at b 0)) b.

(** [valid_fat_directory_entry]; the entry is the list of its bytes. *)
Definition valid_fat_directory_entry (cfg : fat_config) (b : list Z) : fat_validation_t :=
  if negb (Nat.eqb (List.length b) 32) then INVALID
  else if is_constant b then ALL_NULL
  else
    let attrib := byte_at b DE_ATTRIB in
    if negb (Z.land attrib (Z.lxor FATFS_ATTR_ALL 255) =? 0) then INVALID
    else if attrib =? FATFS_ATTR_LFN then
      (* [fatfs_dentry_lfn]: seq at 0, reserved1 at 12, reserved2 at 26 *)
      if 10 <? Z.land (byte_at b 0) (Z.lxor 64 255) then INVALID
      else if negb (byte_at b 12 =? 0) then INVALID
      else if negb (fat16int b 26 =? 0) then INVALID
      else VALID_LFN
    else if byte_at b 0 =? 0 then VALID_LAST_DENTRY
    else if (Z.land attrib FATFS_ATTR_LFN =? FATFS_ATTR_LFN) &&
            negb (attrib =? FATFS_ATTR_LFN) then INVALID
    else if negb (Z.land attrib FATFS_ATTR_DIRECTORY =? 0) &&
            negb (Z.land attrib FATFS_ATTR_ARCHIVE =? 0) then INVALID
    else if negb (Z.land attrib 64 =? 0) then INVALID
    else if negb (valid_fat_dentry_name (firstn 8 b) (firstn 3 (skipn 8 b))) then INVALID
    else if 199 <? byte_at b DE_CTIMETEN then INVALID
    else
      let ctime := fat16int b DE_CTIME in
      let cdate := fat16int b DE_CDATE in
      let adate := fat16int b DE_ADATE in
      let wtime := fat16int b DE_WTIME in
      let wdate := fat16int b DE_WDATE in
      if negb (ctime =? 0) && negb (FATFS_ISTIME ctime) then INVALID
      else if negb (cdate =? 0) && negb (FATFS_ISDATE cdate) then INVALID
      else if negb (adate =? 0) && negb (FATFS_ISDATE adate) then INVALID
      else if (adate =? 0) && (ctime =? 0) && (cdate =? 0) then
        if negb (Z.land attrib FATFS_ATTR_VOLUME =? 0) then VALID_DENTRY
        else INVALID
      else if negb (FATFS_ISTIME wtime) then INVALID
      else if negb (FATFS_ISDATE wdate) then INVALID
      else if negb (ctime =? 0) && (ctime =? cdate) then INVALID
      else if negb (wtime =? 0) && (wtime =? wdate) then INVALID
      else if negb (adate =? 0) && (adate =? ctime) then INVALID
      else if negb (adate =? 0) && (adate =? wtime) then INVALID
      else if opt_max_weird_count cfg <? fat_weird_count cfg b then INVALID
      else VALID_DENTRY.

(** A volume label [LABEL] whose cluster and size fields are all ones and
    whose [ctimeten] is 50; its times and dates are zero. *)
Definition volume_label_entry : list Z :=
  [76; 65; 66; 69; 76; 32; 32; 32;  32; 32; 32;  8;  0;  50;
   0; 0;  0; 0;  0; 0;  255; 255;  0; 0;  0; 0;  255; 255;
   255; 255; 255; 255].

(** An ordinary file entry [FILE.TXT] with a huge cluster number and size
    and [ctimeten = 50]. *)
Definition weird_file_entry : list Z :=
  [70; 73; 76; 69; 32; 32; 32; 32;  84; 88; 84;  32;  0;  50;
   0; 96;  33; 80;  33; 80;  255; 255;  0; 96;  33; 80;  255; 255;
   255; 255; 255; 255].

(** ** NTFS MFT records: [scan_ntfsdirs] ([scan_windirs.cpp]) *)

(** Modelled from the spec: the typed reads of be13_api's [sbuf_t]
    ([get8u], [get16u], [get32u], [get64u]) read little-endian and throw
    [range_exception_t] when the read passes the end of the buffer;
    [operator[]] is not a typed read and yields 0 past the end. *)
Fixpoint le_value (sb : sbuf) (i : Z) (w : nat) : Z :=
  match w with
  | O => 0
  | S w' => sb_buf sb i + 256 * le_value sb (i + 1) w'
  end.

Definition get_le (sb : sbuf) (i : Z) (w : nat) : result Z :=
  if sb_bufsize sb <? i + Z.of_nat w then Err RangeException
  else Ok (le_value sb i w).

Definition get8u (sb : sbuf) (i : Z) : result Z := get_le sb i 1.
Definition get16u (sb : sbuf) (i : Z) : result Z := get_le sb i 2.
Definition get32u (sb : sbuf) (i : Z) : result Z := get_le sb i 4.
Definition get64u (sb : sbuf) (i : Z) : result Z := get_le sb i 8.

Definition sbuf_at (sb : sbuf) (i : Z) : Z :=
  if i <? sb_bufsize sb then sb_buf sb i else 0.

(** Modelled from the spec: the child buffer [sbuf_t(sbuf, off, len)]: the
    bytes from [off] on, at most [len] of them, within the parent. *)
Definition sbuf_sub (sb : sbuf) (off len : Z) : sbuf :=
  mk_sbuf (sb_pos0 sb + off)
          (Z.min len (Z.max 0 (sb_bufsize sb - off)))
          (Z.min len (Z.max 0 (sb_pagesize sb - off)))
          (fun i => sb_buf sb (off + i)).

Definition NTFS_MFT_MAGIC : Z := 1162627398.   (* 0x454c4946, "FILE" *)
Definition NTFS_MFT_RES : Z := 0.
Definition NTFS_ATYPE_SI : Z := 16.
Definition NTFS_ATYPE_ATTRLIST : Z := 32.
Definition NTFS_ATYPE_FNAME : Z := 48.
Definition NTFS_ATYPE_OBJID : Z := 64.

(** Modelled from the spec: [sizeof(ntfs_attr)], the 16-byte common header
    and the larger, non-resident, variant of its union. *)
Definition SIZEOF_NTFS_ATTR : Z := 72.

(** [dfxml_writer::strstrmap_t], a [std::map<string,string>]: [m[k] = v]. *)
Definition strstrmap := list (string * string).

Fixpoint map_set (m : strstrmap) (k v : string) : strstrmap :=
  match m with
  | [] => [(k, v)]
  | (k', v') :: m' => if String.eqb k k' then (k, v) :: m' else (k', v') :: map_set m' k v
  end.

(** [%02x] of a byte. *)
Definition hex_digit (d : Z) : ascii :=
  ascii_of_nat (Z.to_nat (if d <? 10 then 48 + d else 87 + d)).

Definition hex2 (x : Z) : string :=
  String (hex_digit (x / 16 mod 16)) (String (hex_digit (x mod 16)) EmptyString).

(** The GUID [snprintf] of [scan_ntfsdirs], from the 16 bytes at [o]. *)
Definition guid_string (n : sbuf) (o : Z) : string :=
  let h k := hex2 (sbuf_at n (o + k)) in
  (h 3 ++ h 2 ++ h 1 ++ h 0 ++ "-" ++ h 5 ++ h 4 ++ "-" ++ h 7 ++ h 6 ++ "-" ++
   h 8 ++ h 9 ++ "-" ++ h 10 ++ h 11 ++ h 12 ++ h 13 ++ h 14 ++ h 15)%string.

(** The [int] expression [n[a] | n[a+1]<<8 | n[a+2]<<16 | n[a+3]<<24],
    widened to [uint64_t] and or-ed with bytes 4 and 5. *)
Definition par_ref_value (n : sbuf) (a : Z) : Z :=
  let lo := sbuf_at n a + Z.shiftl (sbuf_at n (a + 1)) 8 +
            Z.shiftl (sbuf_at n (a + 2)) 16 + Z.shiftl (sbuf_at n (a + 3)) 24 in
  Z.lor (u64 (int_of_ssize lo))
        (Z.lor (Z.shiftl (sbuf_at n (a + 4)) 32) (Z.shiftl (sbuf_at n (a + 5)) 40)).

(** The variables of one record's attribute walk. *)
Record ntfs_state := mk_ntfs_state {
  mftmap : strstrmap;
  filename : string;
  found_attrs : Z
}.

Definition st_set (st : ntfs_state) (k v : string) : ntfs_state :=
  mk_ntfs_state (map_set (mftmap st) k v) (filename st) (found_attrs st).

Definition st_found (st : ntfs_state) : ntfs_state :=
  mk_ntfs_state (mftmap st) (filename st) (found_attrs st + 1).

(** How an attribute handler leaves the [while] loop. *)
Inductive step_out := Continue (st : ntfs_state) | Break (st : ntfs_state).

(** What a record contributes: its position, file name and map. *)
Definition ntfs_record := (Z * string * strstrmap)%type.

Definition terabyte : Z := 1000 * 1000 * 1000 * 1000.

Section NtfsDirs.

(** [microsoftDateToISODate] (be13_api) and [safe_utf16to8] (utf8 library)
    only format values; every statement below holds for any of them. *)
Variable microsoftDateToISODate : Z -> string.
Variable safe_utf16to8 : list Z -> string.

(** [utf16str.push_back(n.get16u(fname_npos + i*2))] for [i < fname_nlen]. *)
Fixpoint read_utf16 (n : sbuf) (pos : Z) (k : nat) : result (list Z) :=
  match k with
  | O => Ok []
  | S k' => u <- get16u n pos ;; rest <- read_utf16 n (pos + 2) k' ;; Ok (u :: rest)
  end.

(** The [NTFS_ATYPE_FNAME] block. *)
Definition ntfs_fname (n : sbuf) (attr_off : Z) (st : ntfs_state) : result step_out :=
  let st := st_found st in
  soff <- get16u n (attr_off + 20) ;;
  let st := st_set st "par_ref" (decimal (par_ref_value n (attr_off + soff))) in
  par_seq <- get16u n (attr_off + soff + 6) ;;
  let st := st_set st "par_seq" (decimal par_seq) in
  t1 <- get64u n (attr_off + soff + 8) ;;
  let st := st_set st "crtime_fn" (microsoftDateToISODate t1) in
  t2 <- get64u n (attr_off + soff + 16) ;;
  let st := st_set st "mtime_fn" (microsoftDateToISODate t2) in
  t3 <- get64u n (attr_off + soff + 24) ;;
  let st := st_set st "ctime_fn" (microsoftDateToISODate t3) in
  t4 <- get64u n (attr_off + soff + 32) ;;
  let st := st_set st "atime_fn" (microsoftDateToISODate t4) in
  filesize_alloc <- get64u n (attr_off + soff + 40) ;;
  if 1000 * terabyte <? filesize_alloc then Ok (Break st) else
  let st := st_set st "filesize_alloc" (decimal filesize_alloc) in
  filesize <- get64u n (attr_off + soff + 48) ;;
  if 1000 * terabyte <? filesize then Ok (Break st) else
  let st := st_set st "filesize" (decimal filesize) in
  attr_flags <- get64u n (attr_off + soff + 56) ;;
  let st := st_set st "attr_flags" (decimal attr_flags) in
  fname_nlen <- get8u n (attr_off + soff + 64) ;;
  fname_nspace <- get8u n (attr_off + soff + 65) ;;
  let fname_npos := attr_off + soff + 66 in
  utf16str <- read_utf16 n fname_npos (Z.to_nat fname_nlen) ;;
  let fn := safe_utf16to8 utf16str in
  let st := mk_ntfs_state (mftmap st) fn (found_attrs st) in
  Ok (Continue (st_set st "filename" fn)).

(** The [NTFS_ATYPE_SI] block. *)
Definition ntfs_si (n : sbuf) (attr_off : Z) (st : ntfs_state) : result ntfs_state :=
  let st := st_found st in
  soff <- get16u n (attr_off + 20) ;;
  t1 <- get64u n (attr_off + soff + 0) ;;
  let st := st_set st "crtime_si" (microsoftDateToISODate t1) in
  t2 <- get64u n (attr_off + soff + 8) ;;
  let st := st_set st "mtime_si" (microsoftDateToISODate t2) in
  t3 <- get64u n (attr_off + soff + 16) ;;
  let st := st_set st "ctime_si" (microsoftDateToISODate t3) in
  t4 <- get64u n (attr_off + soff + 24) ;;
  Ok (st_set st "atime_si" (microsoftDateToISODate t4)).

(** The [NTFS_ATYPE_OBJID] block. *)
Definition ntfs_objid (n : sbuf) (attr_off : Z) (st : ntfs_state) : result ntfs_state :=
  let st := st_found st in
  slen <- get32u n (attr_off + 16) ;;
  soff <- get16u n (attr_off + 20) ;;
  let st := if 16 <=? slen then st_set st "guid_objectid" (guid_string n (attr_off + soff))
            else st in
  let st := if 32 <=? slen then st_set st "guid_birthvolumeid"
                                      (guid_string n (attr_off + soff + 16))
            else st in
  let st := if 48 <=? slen then st_set st "guid_birthobjectid"
                                      (guid_string n (attr_off + soff + 32))
            else st in
  let st := if 64 <=? slen then st_set st "guid_domainid"
                                      (guid_string n (attr_off + soff + 48))
            else st in
  Ok st.

(** The attribute [while] loop.  Every round adds a positive [attr_len]
    to [attr_off] and the loop stops once [attr_off + 72 >= bufsize], so
    [bufsize] rounds suffice; [fuel] stands for them. *)
Fixpoint ntfs_attr_walk (fuel : nat) (n : sbuf) (attr_off : Z) (st : ntfs_state)
  : result ntfs_state :=
  match fuel with
  | O => Ok st
  | S f =>
      if negb (attr_off + SIZEOF_NTFS_ATTR <? sb_bufsize n) then Ok st else
      attr_type <- get32u n (attr_off + 0) ;;
      attr_len <- get32u n (attr_off + 4) ;;
      if attr_len =? 0 then Ok st else
      res <- get8u n (attr_off + 8) ;;
      nlen <- get8u n (attr_off + 9) ;;
      name_off <- get16u n (attr_off + 10) ;;
      mft_flags <- get16u n (attr_off + 12) ;;
      id <- get16u n (attr_off + 14) ;;
      if negb (res =? NTFS_MFT_RES) then ntfs_attr_walk f n (attr_off + attr_len) st else
      let st := if attr_type =? NTFS_ATYPE_ATTRLIST then st_found st else st in
      r <- (if attr_type =? NTFS_ATYPE_FNAME then ntfs_fname n attr_off st
            else Ok (Continue st)) ;;
      match r with
      | Break st => Ok st
      | Continue st =>
          st <- (if attr_type =? NTFS_ATYPE_SI then ntfs_si n attr_off st else Ok st) ;;
          st <- (if attr_type =? NTFS_ATYPE_OBJID then ntfs_objid n attr_off st else Ok st) ;;
          ntfs_attr_walk f n (attr_off + attr_len) st
      end
  end.

(** The body of the [try] block for one 1024-byte candidate [n]. *)
Definition ntfs_candidate (n : sbuf) : result (option ntfs_record) :=
  magic <- get32u n 0 ;;
  if negb (magic =? NTFS_MFT_MAGIC) then Ok None else
  nlink <- get16u n 16 ;;
  if negb (nlink <? 10) then Ok None else
  let m := map_set [] "nlink" (decimal nlink) in
  lsn <- get64u n 8 ;;
  let m := map_set m "lsn" (decimal lsn) in
  sq <- get16u n 18 ;;
  let m := map_set m "seq" (decimal sq) in
  attr_off <- get16u n 20 ;;
  st <- ntfs_attr_walk (Z.to_nat (sb_bufsize n)) n attr_off (mk_ntfs_state m EmptyString 0) ;;
  if 3 <? Z.of_nat (List.length (mftmap st)) then
    let fn := if String.eqb (filename st) EmptyString then "$NOFILENAME"%string
              else filename st in
    Ok (Some (sb_pos0 n, fn, mftmap st))
  else Ok None.

(** The [for (base ...)] loop with its [try]/[catch (range_exception_t)]:
    the records written, in order. *)
Fixpoint ntfs_scan_from (fuel : nat) (sb : sbuf) (base : Z) : result (list ntfs_record) :=
  match fuel with
  | O => Ok []
  | S f =>
      if negb (base <? sb_pagesize sb) then Ok [] else
      let n := sbuf_sub sb base 1024 in
      if negb (sb_bufsize n =? 1024) then ntfs_scan_from f sb (base + 512) else
      match ntfs_candidate n with
      | Ok (Some r) => rest <- ntfs_scan_from f sb (base + 512) ;; Ok (r :: rest)
      | Ok None => ntfs_scan_from f sb (base + 512)
      | Err RangeException => ntfs_scan_from f sb (base + 512)
      | Err e => Err e
      end
  end.

Definition scan_ntfsdirs (sb : sbuf) : result (list ntfs_record) :=
  ntfs_scan_from (S (Z.to_nat (sb_pagesize sb / 512))) sb 0.

(** What one candidate offset contributes to the output. *)
Definition candidate_output (sb : sbuf) (base : Z) : list ntfs_record :=
  let n := sbuf_sub sb base 1024 in
  if sb_bufsize n =? 1024 then
    match ntfs_candidate n with
    | Ok (Some r) => [r]
    | _ => []
    end
  else [].

End NtfsDirs.

(** A computation that fails, fails only with a range error. *)
Definition only_range {A} (r : result A) : Prop :=
  forall e, r = Err e -> e = RangeException.


(** The candidate offsets [0, 512, ...] below [ps]. *)
Fixpoint ntfs_bases (fuel : nat) (ps base : Z) : list Z :=
  match fuel with
  | O => []
  | S f => if base <? ps then base :: ntfs_bases f ps (base + 512) else []
  end.

(** ** The facebook scanner: [scan_facebook] *)

(** [used_offsets_t::window]. *)
Definition window : Z := 4096.

(** [used_offsets_t::value_used]: whether [value] lies strictly within
    [window / 2] of a recorded offset; if not, [value] is recorded. *)
Definition value_used (offsets : list Z) (value : Z) : bool * list Z :=
  if existsb (fun o => (o - window / 2 <? value) && (o + window / 2 >? value)) offsets
  then (true, offsets)
  else (false, offsets ++ [value]).

Definition ascii_codes (s : string) : list Z :=
  map (fun c => Z.of_nat (nat_of_ascii c)) (list_ascii_of_string s).

(** [facebook_searches]; the seventh needle is [id="facebook.com"]. *)
Definition facebook_searches : list (list Z) :=
  map ascii_codes
    ["hovercard/page"; "profile_owner"; "actorDescription actorNames";
     "navAccountName"; "renderedAuthorList"; "pokesText"]%string ++
  [ascii_codes "id=" ++ [34] ++ ascii_codes "facebook.com" ++ [34]] ++
  map ascii_codes
    ["OrderedFriendsListInitialData"; "mobileFriends"; "ShortProfiles";
     "bigPipe.onPageletArrive"; "TimelineContentLoader";
     "Facebook is a social utility that connects"; "facebook.com/profile.php";
     "timelineUnitContainer"]%string.

Fixpoint starts_with (l needle : list Z) : bool :=
  match needle, l with
  | [], _ => true
  | c :: needle', b :: l' => (b =? c) && starts_with l' needle'
  | _ :: _, [] => false
  end.

(** Modelled from the spec: be13_api's [sbuf_t::find(str, start)], the
    first offset at or after [start] where [str] occurs in the buffer, or
    -1. *)
Fixpoint find_from (l needle : list Z) (i : Z) : Z :=
  match l with
  | [] => if starts_with [] needle then i else -1
  | _ :: l' => if starts_with l needle then i else find_from l' needle (i + 1)
  end.

Definition sbuf_find (buf needle : list Z) (start : Z) : Z :=
  find_from (skipn (Z.to_nat start) buf) needle start.

(** The window written for a hit at [location] in a buffer of [len] bytes:
    [(begin, length)] as passed to [write_buf]. *)
Definition facebook_window (len location : Z) : Z * Z :=
  let begin := if location >? window / 2 then location - window / 2 else 0 in
  let end_ := begin + window in
  let end_ := if end_ + 10 >? len then len - 10 else end_ in
  (begin, end_ - begin).

(** The inner [for (i ...)] loop for one needle: the used offsets and the
    windows written so far are threaded through.  Each round moves [i] past
    the hit, so [len + 1] rounds suffice; [fuel] stands for them. *)
Fixpoint facebook_needle_loop (fuel : nat) (buf needle : list Z) (i : Z)
         (used : list Z) (out : list (Z * Z)) : list Z * list (Z * Z) :=
  match fuel with
  | O => (used, out)
  | S f =>
      let len := Z.of_nat (List.length buf) in
      if negb (i + 50 <? len) then (used, out) else
      let location := sbuf_find buf needle i in
      if location <? 1 then (used, out) else
      let '(hit, used') := value_used used location in
      if hit then facebook_needle_loop f buf needle (location + window + 1) used' out
      else facebook_needle_loop f buf needle (location + window + 1) used'
             (out ++ [facebook_window len location])
  end.

(** The [PHASE_SCAN] branch: the windows written, in order. *)
Definition scan_facebook (buf : list Z) : list (Z * Z) :=
  snd (fold_left (fun '(used, out) needle =>
                    facebook_needle_loop (S (List.length buf)) buf needle 0 used out)
                 facebook_searches ([], [])).

(** A 5000-byte page with [pokesText] at offset 4000. *)
Definition pokes_page : list Z :=
  repeat 32 4000 ++ ascii_codes "pokesText" ++ repeat 32 991.

(** A 100-byte page starting with [pokesText] and holding it again at 40. *)
Definition pokes_at_zero_page : list Z :=
  ascii_codes "pokesText" ++ repeat 32 31 ++ ascii_codes "pokesText" ++ repeat 32 51.

(** The invariant of a split-raw segment list. *)
Definition segments_inv (p : process_raw) : Prop :=
  contiguous_from 0 (file_list p) /\ raw_filesize p = total_length (file_list p).

(** ** Opened raw images: reading, iterating, probing *)

(** A segment whose file is a regular file of the recorded length. *)
Definition seg_file (fs : filesystem) (fi : file_info) : Prop :=
  exists d, fs_lookup fs (fi_name fi) = Some (NFile (Z.to_N (fi_length fi)) d).

(** The state [process_raw::open] leaves: contiguous segments, each a
    regular file of its recorded length, and a descriptor that is open
    whenever the current file name is that of a segment. *)
Definition raw_ready (fs : filesystem) (p : process_raw) : Prop :=
  segments_inv p /\ Forall (seg_file fs) (file_list p) /\
  (forall fi, In fi (file_list p) -> fi_name fi = current_file_name p -> 0 <= current_fd p).

(** Byte [o] of the image seen through its segments: byte [o - offset] of
    the segment holding [o], 0 when none does. *)
Definition image_byte (fs : filesystem) (l : list file_info) (o : Z) : Z :=
  match find_offset l o with
  | Some fi =>
      match fs_lookup fs (fi_name fi) with
      | Some (NFile _ d) => d (o - fi_offset fi)
      | _ => 0
      end
  | None => 0
  end.

(** What [process_raw::pread] returns for [bytes] at [offset] of an image
    of [size] bytes. *)
Definition pread_count (size bytes offset : Z) : Z :=
  if offset <? size then Z.min bytes (size - offset) else 0.

(** The number of segments ending after [o], the measure of the recursion
    of [process_raw::pread]. *)
Fixpoint segs_after (l : list file_info) (o : Z) : nat :=
  match l with
  | [] => O
  | fi :: l' =>
      Nat.add (if o <? fi_offset fi + fi_length fi then 1%nat else 0%nat) (segs_after l' o)
  end.

(** [p'] describes the same image as [p]; only the open file may differ. *)
Definition same_image (p p' : process_raw) : Prop :=
  image_fname p' = image_fname p /\ pagesize p' = pagesize p /\ margin p' = margin p /\
  file_list p' = file_list p /\ raw_filesize p' = raw_filesize p.

(** The invariant of [process_raw::open] while it collects segments. *)
Definition opening (fs : filesystem) (p : process_raw) : Prop :=
  segments_inv p /\ Forall (seg_file fs) (file_list p) /\
  Forall (fun fi => fi_name fi <> EmptyString) (file_list p) /\
  current_file_name p = EmptyString.

(** A one-file image [img.raw] of 100 bytes, byte [i] being [i]. *)
Definition fs_small : filesystem := [("img.raw"%string, NFile 100%N (fun i => i))].




(** ** Directory sources and packet sequences *)

(** [process_dir::end]: the iterator past the last file of the directory. *)
Definition process_dir_end (files : list string) : iterator :=
  mk_iterator 0 (Z.of_nat (List.length files)) true.

(** [process_dir::increment_iterator]: the next file number, kept at most the number of files. *)
Definition process_dir_increment (files : list string) (it : iterator) : iterator :=
  let n := u64 (file_number it + 1) in
  mk_iterator (raw_offset it)
              (if Z.of_nat (List.length files) <? n then Z.of_nat (List.length files) else n)
              (eof it).

(** [process_dir::max_blocks]: one block per file. *)
Definition process_dir_max_blocks (files : list string) : Z := Z.of_nat (List.length files).

(** A directory [d] holding a file [a] and a subdirectory [sub] with a file [b]. *)
Definition fs_tree : filesystem :=
  [("d"%string, NDir ["a"; "sub"]%string);
   ("d/a"%string, NFile 10%N (fun _ => 0));
   ("d/sub"%string, NDir ["b"]%string);
   ("d/sub/b"%string, NFile 20%N (fun _ => 1))].

(** The bytes [pcap_writepkt] appends for one packet: the 16-byte record header, the forged Ethernet header when it is added, and the packet bytes. *)
Definition pcap_record (max : Z) (h : pcap_hdr) (sb : sbuf) (pos : Z)
           (add_frame : bool) (frame_type : Z) : list Z :=
  let add_frame_and_safe := add_frame && (cap_len h + ETHER_HEAD_LEN <=? max) in
  let forged_header_len := if add_frame_and_safe then ETHER_HEAD_LEN else 0 in
  pcap_write4 (seconds h) ++ pcap_write4 (useconds h) ++
  pcap_write4 (cap_len h + forged_header_len) ++
  pcap_write4 (pkt_len h + forged_header_len) ++
  (if add_frame_and_safe
   then repeat 0 12 ++ [Z.land (Z.shiftr frame_type 8) 255; Z.land frame_type 255] else []) ++
  sbuf_write sb pos (cap_len h).

(** Writing a sequence of packets with [pcap_writepkt], stopping at the first error. *)
Fixpoint pcap_write_all (max : Z) (w : pcap_writer)
         (pkts : list (pcap_hdr * sbuf * Z * bool * Z)) : result pcap_writer :=
  match pkts with
  | [] => Ok w
  | (h, sb, pos, af, ft) :: rest =>
      w' <- pcap_writepkt max w h sb pos af ft ;; pcap_write_all max w' rest
  end.

(** The record of one packet of a sequence. *)
Definition pkt_record (max : Z) (pk : pcap_hdr * sbuf * Z * bool * Z) : list Z :=
  let '(h, sb, pos, af, ft) := pk in pcap_record max h sb pos af ft.

(** Reading a little-endian field back. *)
Definition le_decode (l : list Z) : Z := fold_right (fun b acc => b + 256 * acc) 0 l.

(** ** FAT and NTFS directory scans, facebook hits *)

(** Two offsets at least [window / 2 = 2048] bytes apart. *)
Definition far_apart (a b : Z) : Prop := b <= a - 2048 \/ a + 2048 <= b.

(** An offset of the buffer, at least 1, where one of the [facebook_searches] occurs. *)
Definition facebook_hit (buf : list Z) (u : Z) : Prop :=
  1 <= u /\ exists needle, In needle facebook_searches /\
                           starts_with (skipn (Z.to_nat u) buf) needle = true.

(** What the scanner has written so far: one window per recorded offset, in order; the recorded offsets are pairwise far apart and are hits. *)
Definition facebook_inv (buf : list Z) (used : list Z) (out : list (Z * Z)) : Prop :=
  out = map (facebook_window (Z.of_nat (List.length buf))) used /\
  ForallOrdPairs far_apart used /\ Forall (facebook_hit buf) used.

(** A 1024-byte MFT record with one standard-information attribute at 56. *)
Definition mft_page : sbuf :=
  mk_sbuf 4096 1024 512 (fun i =>
    if i =? 0 then 70 else if i =? 1 then 73 else if i =? 2 then 76 else if i =? 3 then 69
    else if i =? 16 then 1 else if i =? 20 then 56
    else if i =? 56 then 16 else if i =? 60 then 96 else if i =? 76 then 24 else 0).

(** The bytes of a buffer, as the list [valid_fat_directory_entry] reads. *)
Definition sbuf_bytes (n : sbuf) : list Z :=
  map (fun i => sb_buf n (Z.of_nat i)) (seq 0 (Z.to_nat (sb_bufsize n))).

(** [sbuf_t n(sector, entry_number*32, 32)]. *)
Definition fat_entry (sector : sbuf) (k : Z) : sbuf := sbuf_sub sector (k * 32) 32.

(** A [uint16_t] variable. *)
Definition u16 (x : Z) : Z := x mod 2 ^ 16.

(** A byte written to a [std::stringstream] as a [char]. *)
Definition byte_char (c : Z) : ascii := ascii_of_nat (Z.to_nat c).

(** The file name [scan_fatdirs] prints: the name bytes other than spaces, a dot, then the extension bytes other than spaces. *)
Definition fat_filename (b : list Z) : string :=
  string_of_list_ascii
    (map byte_char (filter (fun c => negb (c =? 32)) (firstn 8 b)) ++ ["."%char] ++
     map byte_char (filter (fun c => negb (c =? 32)) (firstn 3 (skipn 8 b)))).

Section FatDirs.

Variable fatYear : Z -> Z.
Variable fatDateToISODate : Z -> Z -> string.
Variable cfg : fat_config.

(** The year test that counts an entry in [valid_year_count]. *)
Definition fat_years_ok (b : list Z) : bool :=
  let ayear := u16 (fatYear (fat16int b DE_ADATE)) in
  let cyear := u16 (fatYear (fat16int b DE_CDATE)) in
  let wyear := u16 (fatYear (fat16int b DE_WDATE)) in
  ((ayear =? 0) || (1980 + ayear <? opt_last_year cfg)) &&
  ((cyear =? 0) || (1980 + cyear <? opt_last_year cfg)) &&
  (1980 + wyear <? opt_last_year cfg).

(** The first loop over the 16 entries of a sector: [(last_valid_entry_number, ret1_count, valid_year_count)]. *)
Fixpoint fat_classify (fuel : nat) (sector : sbuf) (k last ret1 vyc : Z) : Z * Z * Z :=
  match fuel with
  | O => (last, ret1, vyc)
  | S f =>
      if negb (k <? 16) then (last, ret1, vyc) else
      let b := sbuf_bytes (fat_entry sector k) in
      match valid_fat_directory_entry cfg b with
      | ALL_NULL => (last, ret1, vyc)
      | VALID_DENTRY =>
          fat_classify f sector (k + 1) k (ret1 + 1)
                       (if fat_years_ok b then vyc + 1 else vyc)
      | INVALID => (last, ret1, vyc)
      | VALID_LFN => fat_classify f sector (k + 1) k ret1 vyc
      | VALID_LAST_DENTRY => (k, ret1, vyc)
      end
  end.

(** The [fatmap] written for an entry. *)
Definition fat_map (b : list Z) : strstrmap :=
  let m := map_set [] "filename" (fat_filename b) in
  let m := map_set m "ctimeten" (decimal (byte_at b DE_CTIMETEN)) in
  let m := map_set m "ctime" (fatDateToISODate (fat16int b DE_CDATE) (fat16int b DE_CTIME)) in
  let m := map_set m "atime" (fatDateToISODate (fat16int b DE_ADATE) 0) in
  let m := map_set m "mtime" (fatDateToISODate (fat16int b DE_WDATE) (fat16int b DE_WTIME)) in
  let m := map_set m "startcluster" (decimal (fat32int2 b DE_HIGHCLUST DE_STARTCLUST)) in
  let m := map_set m "filesize" (decimal (fat32int b DE_SIZE)) in
  map_set m "attrib" (decimal (byte_at b DE_ATTRIB)).

(** The second loop: one record for each [VALID_DENTRY] entry up to [last_valid_entry_number]. *)
Fixpoint fat_write_entries (fuel : nat) (sector : sbuf) (k last : Z) : list ntfs_record :=
  match fuel with
  | O => []
  | S f =>
      if (k <=? last) && (k <? 16) then
        let n := fat_entry sector k in
        let b := sbuf_bytes n in
        match valid_fat_directory_entry cfg b with
        | VALID_DENTRY => [(sb_pos0 n, fat_filename b, fat_map b)]
        | _ => []
        end ++ fat_write_entries f sector (k + 1) last
      else []
  end.

(** The records written for one 512-byte sector. *)
Definition fat_sector_output (sector : sbuf) : list ntfs_record :=
  let '(last, ret1, vyc) := fat_classify 16 sector 0 (-1) 0 0 in
  if (ret1 =? 1) && (vyc =? 0) then []
  else if (last =? 1) && (vyc =? 0) then []
  else if (0 <=? last) && (0 <? ret1) then fat_write_entries 16 sector 0 last
  else [].

(** The [for (base ...)] loop of [scan_fatdirs]: it stops at the first sector shorter than 512 bytes. *)
Fixpoint fat_scan_from (fuel : nat) (sb : sbuf) (base : Z) : list ntfs_record :=
  match fuel with
  | O => []
  | S f =>
      if negb (base <? sb_pagesize sb) then [] else
      let sector := sbuf_sub sb base 512 in
      if sb_bufsize sector <? 512 then []
      else fat_sector_output sector ++ fat_scan_from f sb (base + 512)
  end.

(** [scan_fatdirs]: the records written, in order. *)
Definition scan_fatdirs (sb : sbuf) : list ntfs_record :=
  fat_scan_from (S (Z.to_nat (sb_pagesize sb / 512))) sb 0.

End FatDirs.

(** The two results that let the first loop continue. *)
Definition valid_or_lfn (v : fat_validation_t) : Prop := v = VALID_DENTRY \/ v = VALID_LFN.

(** A sector holding the volume label [LABEL] followed by empty entries. *)
Definition fat_label_page : sbuf :=
  mk_sbuf 8192 512 512 (fun i => if i <? 32 then nth (Z.to_nat i) volume_label_entry 0 else 0).


(** A lowercase ASCII letter. *)
Definition is_lower (c : Z) : bool := (97 <=? c) && (c <=? 122).


(** [FILE.TXT] spelt [FIle.TXT]: a lowercase [l] at offset 2 of the name. *)
Definition lowercase_entry : list Z :=
  [70; 73; 108; 69; 32; 32; 32; 32;  84; 88; 84;  32;  0;  0;
   0; 96;  33; 80;  33; 80;  0; 0;  0; 96;  33; 80;  2; 0;
   16; 0; 0; 0].


(** The number of set bits among the low [n] bits. *)
Fixpoint bits_set (n : nat) (x : Z) : Z :=
  match n with
  | O => 0
  | S n' => (if Z.testbit x (Z.of_nat n') then 1 else 0) + bits_set n' x
  end.

(** * Properties *)

(** ** Split raw reads *)

Lemma pread_no_segment fs p buf dst bytes offset :
  find_offset (file_list p) offset = None ->
  pread fs p buf dst bytes offset = Ok (p, 0, buf).
Proof. intros H. unfold pread. simpl. rewrite H. reflexivity. Qed.


Lemma mem_copy_in buf dst k src local j :
  dst <= j < dst + k -> mem_copy buf dst k src local j = src (local + (j - dst)).
Proof.
  intros H. unfold mem_copy.
  destruct (Z.leb_spec dst j), (Z.ltb_spec j (dst + k)); simpl; try lia; reflexivity.
Qed.

Lemma mem_copy_out buf dst k src local j :
  j < dst \/ dst + k <= j -> mem_copy buf dst k src local j = buf j.
Proof.
  intros H. unfold mem_copy.
  destruct (Z.leb_spec dst j), (Z.ltb_spec j (dst + k)); simpl; try lia; reflexivity.
Qed.
(** ** The segment list of a split raw image *)

Section Segments.

Lemma contiguous_from_app s l fi :
  contiguous_from s l -> fi_offset fi = s + total_length l -> 0 <= fi_length fi ->
  contiguous_from s (l ++ [fi]).
Proof.
  revert s. induction l as [|a l IH]; intros s Hc Ho Hl; simpl in *.
  - repeat split; auto. lia.
  - destruct Hc as (Ha & Hla & Hc). repeat split; auto.
    apply IH; auto. lia.
Qed.

Lemma contiguous_from_lower s l x :
  contiguous_from s l -> In x l -> s <= fi_offset x.
Proof.
  revert s. induction l as [|a l IH]; intros s Hc Hin; simpl in *; [contradiction|].
  destruct Hc as (Ha & Hla & Hc). destruct Hin as [<- | Hin]; [lia|].
  specialize (IH _ Hc Hin). lia.
Qed.

Lemma contiguous_from_nonneg s l x :
  contiguous_from s l -> In x l -> 0 <= fi_length x.
Proof.
  revert s. induction l as [|a l IH]; intros s Hc Hin; simpl in *; [contradiction|].
  destruct Hc as (Ha & Hla & Hc). destruct Hin as [<- | Hin]; [lia|].
  eapply IH; eauto.
Qed.

Lemma contiguous_from_ordered s l :
  contiguous_from s l ->
  forall i j a b, (i < j)%nat -> nth_error l i = Some a -> nth_error l j = Some b ->
  fi_offset a + fi_length a <= fi_offset b.
Proof.
  revert s. induction l as [|x l IH]; intros s Hc i j a b Hij Ha Hb.
  - destruct i; discriminate.
  - simpl in Hc. destruct Hc as (Hx & Hlx & Hc).
    destruct j as [|j]; [lia|]. simpl in Hb.
    destruct i as [|i]; simpl in Ha.
    + injection Ha as <-.
      assert (In b l) as Hin by (eapply nth_error_In; eauto).
      pose proof (contiguous_from_lower _ _ _ Hc Hin). lia.
    + apply (IH _ Hc i j a b); auto; lia.
Qed.

Lemma find_offset_some l o fi :
  find_offset l o = Some fi -> In fi l /\ seg_contains fi o.
Proof.
  induction l as [|a l IH]; simpl; [discriminate|].
  destruct (Z.leb_spec (fi_offset a) o), (Z.ltb_spec o (fi_offset a + fi_length a));
    simpl; intros Hf.
  - injection Hf as <-. unfold seg_contains. split; auto; lia.
  - destruct (IH Hf); auto.
  - destruct (IH Hf); auto.
  - destruct (IH Hf); auto.
Qed.

Lemma find_offset_none l o :
  find_offset l o = None -> forall fi, In fi l -> ~ seg_contains fi o.
Proof.
  induction l as [|a l IH]; simpl; [tauto|].
  unfold seg_contains.
  destruct (Z.leb_spec (fi_offset a) o), (Z.ltb_spec o (fi_offset a + fi_length a));
    simpl; intros Hf fi [<- | Hin]; try discriminate; try lia; apply IH; auto.
Qed.

Lemma contiguous_from_unique s l o a b :
  contiguous_from s l -> In a l -> In b l -> seg_contains a o -> seg_contains b o ->
  a = b.
Proof.
  intros Hc Ha Hb Hao Hbo.
  apply In_nth_error in Ha as [i Hi]. apply In_nth_error in Hb as [j Hj].
  unfold seg_contains in *.
  destruct (Nat.lt_trichotomy i j) as [Hij | [<- | Hij]].
  - pose proof (contiguous_from_ordered s l Hc i j a b Hij Hi Hj). lia.
  - congruence.
  - pose proof (contiguous_from_ordered s l Hc j i b a Hij Hj Hi). lia.
Qed.

Lemma total_length_app l fi :
  total_length (l ++ [fi]) = total_length l + fi_length fi.
Proof.
  induction l as [|a l IH]; simpl; [lia|]. rewrite IH. lia.
Qed.

Lemma add_file_inv fs p fname p' :
  segments_inv p -> add_file fs p fname = Ok p' -> segments_inv p'.
Proof.
  unfold add_file, file_size, segments_inv. intros [Hc Hs] H.
  destruct (fs_lookup fs fname) as [[sz d|ch]|]; simpl in H; try discriminate.
  injection H as <-. simpl. split.
  - apply contiguous_from_app; simpl; auto; lia.
  - rewrite total_length_app. simpl. lia.
Qed.

Lemma probe_loop_inv fuel fs templ num p p' :
  segments_inv p -> probe_loop fuel fs templ num p = Ok p' -> segments_inv p'.
Proof.
  revert num p. induction fuel as [|f IH]; intros num p Hp H; simpl in H.
  - injection H as <-. exact Hp.
  - destruct (probe_name templ num) as [name|]; [|discriminate].
    destruct (negb (access_ok fs name)).
    + injection H as <-. exact Hp.
    + destruct (add_file fs p name) as [p1|e] eqn:E;
        simpl in H; [|discriminate].
      eapply IH; [|exact H]. eapply add_file_inv; eauto.
Qed.

Lemma process_raw_open_inv fs fname ps mg p :
  process_raw_open fs (process_raw_new fname ps mg) = Ok p -> segments_inv p.
Proof.
  unfold process_raw_open. intros H.
  destruct (add_file fs (process_raw_new fname ps mg) (image_fname (process_raw_new fname ps mg)))
    as [p1|e] eqn:E; simpl in H; [|discriminate].
  assert (segments_inv p1) as H1.
  { eapply add_file_inv; [|exact E]. split; simpl; auto. }
  simpl in H. destruct (is_multipart_file fname).
  - destruct (make_list_template fname) as [templ num].
    eapply probe_loop_inv; eauto.
  - injection H as <-. exact H1.
Qed.

End Segments.

(** Claim C8: after [process_raw::open], the segments collected by
    [add_file] are contiguous from offset 0 (each starts where the previous
    ends, lengths non-negative), hence ordered and non-overlapping;
    [image_size] is the sum of their lengths; [find_offset o] returns a
    segment holding [o], the only one, and returns null exactly when no
    segment holds [o]. *)
Theorem open_segments_invariant fs fname ps mg p :
  process_raw_open fs (process_raw_new fname ps mg) = Ok p ->
  contiguous_from 0 (file_list p) /\
  image_size p = total_length (file_list p) /\
  (forall i j a b, (i < j)%nat ->
     nth_error (file_list p) i = Some a -> nth_error (file_list p) j = Some b ->
     fi_offset a <= fi_offset a + fi_length a <= fi_offset b) /\
  (forall o fi, find_offset (file_list p) o = Some fi ->
     In fi (file_list p) /\ seg_contains fi o /\
     (forall fi', In fi' (file_list p) -> seg_contains fi' o -> fi' = fi)) /\
  (forall o, find_offset (file_list p) o = None <->
     (forall fi, In fi (file_list p) -> ~ seg_contains fi o)).
Proof.
  intros H. apply process_raw_open_inv in H as [Hc Hs].
  split; [exact Hc|]. split; [exact Hs|]. split; [|split].
  - intros i j a b Hij Ha Hb.
    pose proof (contiguous_from_ordered 0 _ Hc i j a b Hij Ha Hb).
    assert (In a (file_list p)) as Hin by (eapply nth_error_In; eauto).
    pose proof (contiguous_from_nonneg _ _ _ Hc Hin). lia.
  - intros o fi Hf. destruct (find_offset_some _ _ _ Hf) as [Hin Hcont].
    split; [exact Hin|]. split; [exact Hcont|]. intros fi' Hin' Hcont'.
    eapply contiguous_from_unique; eauto.
  - intros o. split; [exact (find_offset_none _ o)|].
    intros Hno. destruct (find_offset (file_list p) o) as [fi|] eqn:E; auto.
    destruct (find_offset_some _ _ _ E) as [Hin Hcont]. exfalso. eapply Hno; eauto.
Qed.

Lemma open_segments_invariant_witness :
  exists p,
    process_raw_open (split_fs (fun _ => 0) (fun _ => 1) (fun _ => 2))
                     (process_raw_new "img.000" 4096 512) = Ok p /\
    contiguous_from 0 (file_list p) /\ image_size p = total_length (file_list p).
Proof.
  eexists. split; [vm_compute; reflexivity|].
  destruct (open_segments_invariant (split_fs (fun _ => 0) (fun _ => 1) (fun _ => 2))
              "img.000" 4096 512 _ ltac:(vm_compute; reflexivity)) as (Hc & Hs & _).
  split; assumption.
Defined.

(** ** Seeking *)




(** ** Page allocation *)

(** Claim C4 (code defect): [process_raw::sbuf_alloc] stores the [ssize_t]
    returned by [pread] in an [int].  With 4 GiB pages on a 4 GiB image, the
    read at offset 0 returns all [2^32] bytes, the [int] holds 0, and
    [EndOfImage] is thrown although the read was not a zero-byte read,
    whenever the [2^32]-byte buffer can be allocated. *)
Theorem sbuf_alloc_int_truncation :
  exists p p' buf,
    process_raw_open fs_4gib (process_raw_new "img.raw" (2 ^ 32) 0) = Ok p /\
    pread fs_4gib p (fun _ => 0) 0 (2 ^ 32) (raw_offset iterator_begin) =
      Ok (p', 2 ^ 32, buf) /\
    forall sbuf_malloc_ok, sbuf_malloc_ok (2 ^ 32) = true ->
      sbuf_alloc sbuf_malloc_ok fs_4gib p iterator_begin = Err EndOfImage.
Proof.
  do 3 eexists. split; [vm_compute; reflexivity|].
  split; [cbv -[mem_copy]; reflexivity|].
  intros m Hm. unfold sbuf_alloc. cbv zeta.
  match goal with |- context [negb (m ?c)] =>
    replace c with (2 ^ 32) by (vm_compute; reflexivity) end.
  rewrite Hm. vm_compute. reflexivity.
Qed.

Lemma sbuf_alloc_int_truncation_witness :
  exists p,
    process_raw_open fs_4gib (process_raw_new "img.raw" (2 ^ 32) 0) = Ok p /\
    sbuf_alloc (fun n => n <=? 2 ^ 40) fs_4gib p iterator_begin = Err EndOfImage.
Proof.
  destruct sbuf_alloc_int_truncation as (p & p' & buf & Ho & _ & H).
  exists p. split; [exact Ho|]. apply H. reflexivity.
Defined.

(** ** The pcap writer *)

(** Claim C2 as stated fails on its own example: one synthesized 60-byte
    packet of type 0x0800 gives a 114-byte file, but byte 38 is the third
    byte of the record's [orig_len] field (74 = 0x4a, little-endian), that
    is 0, not 0x08. *)
Lemma pcap_byte38_not_type :
  exists f,
    pcap_writepkt 65535 fresh_writer ipv4_hdr ipv4_page 100 true 2048 =
      Ok (mk_pcap_writer true (Some f)) /\
    List.length f = 114%nat /\ nth 38 f 0 = 0 /\ nth 38 f 0 <> 8.
Proof. eexists. vm_compute. split; [reflexivity|]. repeat split; discriminate. Qed.

Lemma sbuf_write_in_range sb pos len :
  0 <= pos -> 0 <= len -> pos + len <= sb_bufsize sb ->
  sbuf_write sb pos len = map (fun i => sb_buf sb (pos + Z.of_nat i)) (seq 0 (Z.to_nat len)).
Proof.
  intros H0 H1 H2. unfold sbuf_write.
  destruct (Z.leb_spec (sb_bufsize sb) pos).
  - replace len with 0 by lia. reflexivity.
  - rewrite Z.min_l by lia. reflexivity.
Qed.


Lemma pcap_write4_shape x : exists a b c d, pcap_write4 x = [a; b; c; d].
Proof. do 4 eexists. reflexivity. Qed.
(** Claim C2 (amended): [pcap_writepkt] prepends the 14-byte Ethernet header
    (12 zero bytes, then the type big-endian) exactly when synthesis is
    requested and [cap_len + 14 <= PCAP_MAX_PKT_LEN], and then adds 14 to
    both record lengths; the first write to a fresh writer first emits the
    24-byte global header (magic 0xA1B2C3D4, 2, 4, 0, 0, [PCAP_MAX_PKT_LEN], 1,
    little-endian), later writes append the record alone; the packet bytes
    are those of the buffer from [pos].  One synthesized 60-byte packet of
    type 0x0800 (with [PCAP_MAX_PKT_LEN >= 74]) yields a 114-byte file whose
    byte 52 (offset 12 into the synthetic header) is 0x08, byte 53 is 0x00,
    and byte 38 (inside the record header) is 0. *)
Theorem pcap_writepkt_layout max w h sb pos add_frame ft :
  let synth := add_frame && (cap_len h + 14 <=? max) in
  let ext := if synth then 14 else 0 in
  let record :=
    pcap_write4 (seconds h) ++ pcap_write4 (useconds h) ++
    pcap_write4 (cap_len h + ext) ++ pcap_write4 (pkt_len h + ext) ++
    (if synth then repeat 0 12 ++ [Z.land (Z.shiftr ft 8) 255; Z.land ft 255] else []) ++
    sbuf_write sb pos (cap_len h) in
  (fcap w = None -> outpath_writable w = true ->
     pcap_writepkt max w h sb pos add_frame ft =
       Ok (mk_pcap_writer true
             (Some ([212; 195; 178; 161; 2; 0; 4; 0; 0; 0; 0; 0; 0; 0; 0; 0] ++
                    pcap_write4 max ++ [1; 0; 0; 0] ++ record)))) /\
  (forall f0, fcap w = Some f0 ->
     pcap_writepkt max w h sb pos add_frame ft =
       Ok (mk_pcap_writer (outpath_writable w) (Some (f0 ++ record)))) /\
  (0 <= pos -> 0 <= cap_len h -> pos + cap_len h <= sb_bufsize sb ->
     sbuf_write sb pos (cap_len h) =
       map (fun i => sb_buf sb (pos + Z.of_nat i)) (seq 0 (Z.to_nat (cap_len h)))) /\
  (74 <= max ->
     exists f,
       pcap_writepkt max fresh_writer ipv4_hdr ipv4_page 100 true 2048 =
         Ok (mk_pcap_writer true (Some f)) /\
       List.length f = 114%nat /\ nth 52 f 0 = 8 /\ nth 53 f 0 = 0 /\ nth 38 f 0 = 0).
Proof.
  intros synth ext record. split; [|split; [|split]].
  - intros Hf Hw. unfold pcap_writepkt. rewrite Hf, Hw.
    destruct w as [wr fc]. cbn [outpath_writable] in Hw. subst wr.
    unfold bind. reflexivity.
  - intros f0 Hf. unfold pcap_writepkt. rewrite Hf. reflexivity.
  - apply sbuf_write_in_range.
  - intros Hmax.
    assert (Hs : (60 + ETHER_HEAD_LEN <=? max) = true)
      by (apply Z.leb_le; unfold ETHER_HEAD_LEN; lia).
    destruct (pcap_write4_shape max) as (a & b & c & d & E).
    eexists. split.
    + unfold pcap_writepkt. cbn [fcap fresh_writer outpath_writable bind cap_len ipv4_hdr].
      rewrite Hs. reflexivity.
    + unfold pcap_global_header. rewrite E. vm_compute. repeat split; reflexivity.
Qed.

Lemma pcap_writepkt_layout_witness :
  74 <= 65535 /\
  exists f,
    pcap_writepkt 65535 fresh_writer ipv4_hdr ipv4_page 100 true 2048 =
      Ok (mk_pcap_writer true (Some f)) /\ nth 52 f 0 = 8.
Proof.
  split; [lia|].
  destruct (pcap_writepkt_layout 65535 fresh_writer ipv4_hdr ipv4_page 100 true 2048)
    as (_ & _ & _ & H).
  destruct (H ltac:(lia)) as (f & Hf & _ & H52 & _).
  exists f. split; assumption.
Defined.

(** ** The source factory *)

Lemma find_first {A} (f : A -> bool) l c :
  find f l = Some c ->
  exists pre post, l = pre ++ c :: post /\ (forall x, In x pre -> f x = false) /\ f c = true.
Proof.
  induction l as [|a l IH]; simpl; [discriminate|].
  destruct (f a) eqn:Ea.
  - intros H. injection H as <-. exists [], l. split; [reflexivity|]. split; [intros x []|exact Ea].
  - intros H. destruct (IH H) as (pre & post & -> & Hpre & Hc).
    exists (a :: pre), post. split; [reflexivity|]. split; [|exact Hc].
    intros x [<-|Hx]; auto.
Qed.

(** Claim C3 (counterexample): over a directory holding [image.E01] with
    [recurse] set, the factory throws [NoSuchFile] carrying the directory
    path ["d"], not an [InvalidInput]-like error whose message names the
    file; only the diagnostic on [std::cerr] names ["d/image.E01"]. *)
Lemma image_process_open_parts_dir :
  image_process_open false (fun _ => Ok 0) fs_e01_dir "d" true 4096 0 =
    (dir_of_parts_message "d/image.E01" "d", Err (NoSuchFile "d")) /\
  NoSuchFile "d" <> NoSuchFile "d/image.E01".
Proof. split; [reflexivity | discriminate]. Qed.

(** Claim C3 (amended): for a directory [fn], without [recurse] the factory
    throws [NoSuchFile fn]; with [recurse], if some top-level entry has the
    extension [.E01], [.000] or [.001] (compared case-sensitively, by
    [std::filesystem::path::extension]) it throws [NoSuchFile fn], the
    directory path, after printing on [std::cerr] a diagnostic naming the
    first such entry in directory-iteration order (the entry path and [fn]
    printed as [std::quoted] prints them); otherwise it builds a directory
    source over the regular files of the tree. *)
Theorem image_process_open_dir have ewf fs fn cs ps mg :
  fs_lookup fs fn = Some (NDir cs) ->
  image_process_open have ewf fs fn false ps mg =
    ([("error: " ++ fn ++ " is a directory but -R (opt_recurse) not set")%string],
     Err (NoSuchFile fn)) /\
  ((exists c, In c cs /\ is_part_extension (path_extension (path_join fn c)) = true) ->
   exists pre c post,
     cs = pre ++ c :: post /\
     (forall x, In x pre -> is_part_extension (path_extension (path_join fn x)) = false) /\
     is_part_extension (path_extension (path_join fn c)) = true /\
     image_process_open have ewf fs fn true ps mg =
       (dir_of_parts_message (path_join fn c) fn, Err (NoSuchFile fn))) /\
  ((forall c, In c cs -> is_part_extension (path_extension (path_join fn c)) = false) ->
   image_process_open have ewf fs fn true ps mg =
     ([], Ok (SrcDir fn (walk (List.length fs) fs fn)))).
Proof.
  intros Hd. unfold image_process_open. rewrite Hd.
  split; [reflexivity|]. cbn [negb].
  destruct (find (fun c => is_part_extension (path_extension (path_join fn c))) cs)
    as [c|] eqn:Hf.
  - destruct (find_first _ _ _ Hf) as (pre & post & Hcs & Hpre & Hc).
    split; [intros _; exists pre, c, post; auto|].
    intros Hall. rewrite (Hall c) in Hc; [discriminate|].
    rewrite Hcs. apply in_or_app. right. left. reflexivity.
  - split; [|reflexivity].
    intros (c & Hin & Hc).
    rewrite (find_none _ _ Hf c Hin) in Hc. discriminate.
Qed.

Lemma image_process_open_dir_witness :
  fs_lookup fs_e01_dir "d" = Some (NDir ["image.E01"%string]) /\
  image_process_open false (fun _ => Ok 0) fs_e01_dir "d" false 4096 0 =
    ([("error: " ++ "d" ++ " is a directory but -R (opt_recurse) not set")%string],
     Err (NoSuchFile "d")) /\
  exists pre c post,
    ["image.E01"%string] = pre ++ c :: post /\
    image_process_open false (fun _ => Ok 0) fs_e01_dir "d" true 4096 0 =
      (dir_of_parts_message (path_join "d" c) "d", Err (NoSuchFile "d")).
Proof.
  split; [reflexivity|].
  destruct (image_process_open_dir false (fun _ => Ok 0) fs_e01_dir "d"
              ["image.E01"%string] 4096 0 eq_refl) as (H1 & H2 & _).
  split; [exact H1|].
  destruct (H2 (ex_intro _ "image.E01"%string (conj (or_introl eq_refl) eq_refl)))
    as (pre & c & post & Hcs & _ & _ & Ho).
  exists pre, c, post. split; assumption.
Defined.

(** ** FAT directory entries *)

Lemma b2z_nonneg (c : bool) : 0 <= (if c then 1 else 0).
Proof. destruct c; lia. Qed.

Lemma ltb_b2z_one a b : a < b -> (if a <? b then 1 else 0) = 1.
Proof. intros H. apply Z.ltb_lt in H. rewrite H. reflexivity. Qed.

(** An entry is accepted as a short entry only as a volume label (zero
    creation time and date and access date, volume bit set) or with a weird
    count within [opt_max_weird_count]. *)
Lemma valid_fat_dentry_cases cfg b :
  valid_fat_directory_entry cfg b = VALID_DENTRY ->
  (Z.land (byte_at b DE_ATTRIB) FATFS_ATTR_VOLUME <> 0 /\
   fat16int b DE_CTIME = 0 /\ fat16int b DE_CDATE = 0 /\ fat16int b DE_ADATE = 0) \/
  fat_weird_count cfg b <= opt_max_weird_count cfg.
Proof.
  intros H. unfold valid_fat_directory_entry in H. cbv zeta in H.
  repeat match type of H with
         | context [if ?c then _ else _] =>
             let E := fresh "E" in destruct c eqn:E
         end; try discriminate.
  - left. repeat rewrite andb_true_iff in *. repeat rewrite Z.eqb_eq in *.
    match goal with
    | Hz : (fat16int b DE_ADATE = 0 /\ fat16int b DE_CTIME = 0) /\
           fat16int b DE_CDATE = 0 |- _ => destruct Hz as [[Ha Hc] Hd]
    end.
    match goal with
    | Hv : negb (Z.land _ FATFS_ATTR_VOLUME =? 0) = true |- _ =>
        apply negb_true_iff, Z.eqb_neq in Hv
    end.
    auto.
  - right. apply Z.ltb_ge. assumption.
Qed.

(** Claim C6 (counterexample): a volume label whose cluster number and size
    exceed [opt_weird_cluster_count2] and [opt_weird_file_size2] and whose
    [ctimeten] is 50 has a weird count of 7, above the default 2, yet is
    accepted as [VALID_DENTRY]: volume labels return before the count is
    consulted. *)
Lemma fat_volume_label_accepted :
  valid_fat_directory_entry (default_fat_config 2025) volume_label_entry = VALID_DENTRY /\
  opt_weird_cluster_count2 (default_fat_config 2025) <
    fat32int2 volume_label_entry DE_HIGHCLUST DE_STARTCLUST /\
  opt_weird_file_size2 (default_fat_config 2025) < fat32int volume_label_entry DE_SIZE /\
  byte_at volume_label_entry DE_CTIMETEN = 50 /\
  fat_weird_count (default_fat_config 2025) volume_label_entry = 7 /\
  opt_max_weird_count (default_fat_config 2025) = 2.
Proof. vm_compute. repeat split; reflexivity. Qed.

(** Claim C6 (amended): [valid_fat_directory_entry] returns [VALID_DENTRY]
    for an entry whose weird count exceeds [opt_max_weird_count] only when it
    is a volume label with zero creation time, creation date and access date
    (the other non-[INVALID] results, [VALID_LFN], [VALID_LAST_DENTRY] and
    [ALL_NULL], are also returned before the count).  Under the default
    configuration an entry with cluster above [opt_weird_cluster_count2], size
    above [opt_weird_file_size2] and [ctimeten = 50] has a weird count of at
    least 5, so it is never [VALID_DENTRY] unless it is such a volume label. *)
Theorem fat_weird_cutoff cfg last_year b :
  (valid_fat_directory_entry cfg b = VALID_DENTRY ->
   opt_max_weird_count cfg < fat_weird_count cfg b ->
   Z.land (byte_at b DE_ATTRIB) FATFS_ATTR_VOLUME <> 0 /\
   fat16int b DE_CTIME = 0 /\ fat16int b DE_CDATE = 0 /\ fat16int b DE_ADATE = 0) /\
  (opt_weird_cluster_count2 (default_fat_config last_year) <
     fat32int2 b DE_HIGHCLUST DE_STARTCLUST ->
   opt_weird_file_size2 (default_fat_config last_year) < fat32int b DE_SIZE ->
   byte_at b DE_CTIMETEN = 50 ->
   5 <= fat_weird_count (default_fat_config last_year) b /\
   (valid_fat_directory_entry (default_fat_config last_year) b = VALID_DENTRY ->
    Z.land (byte_at b DE_ATTRIB) FATFS_ATTR_VOLUME <> 0 /\
    fat16int b DE_CTIME = 0 /\ fat16int b DE_CDATE = 0 /\ fat16int b DE_ADATE = 0)).
Proof.
  assert (Hcases : forall cfg,
    valid_fat_directory_entry cfg b = VALID_DENTRY ->
    opt_max_weird_count cfg < fat_weird_count cfg b ->
    Z.land (byte_at b DE_ATTRIB) FATFS_ATTR_VOLUME <> 0 /\
    fat16int b DE_CTIME = 0 /\ fat16int b DE_CDATE = 0 /\ fat16int b DE_ADATE = 0).
  { intros c Hv Hw. destruct (valid_fat_dentry_cases c b Hv) as [Hl|Hl]; [exact Hl|lia]. }
  split; [apply Hcases|].
  intros Hc Hs Ht.
  assert (Hw : 5 <= fat_weird_count (default_fat_config last_year) b).
  { unfold fat_weird_count, default_fat_config, CLUSTERS_IN_1GiB in *.
    cbn [opt_weird_file_size opt_weird_file_size2 opt_weird_cluster_count
         opt_weird_cluster_count2 opt_max_bits_in_attrib opt_last_year] in *.
    cbv zeta. rewrite Ht.
    rewrite (ltb_b2z_one (1024 * 1024 * 150) (fat32int b DE_SIZE)) by lia.
    rewrite (ltb_b2z_one (1024 * 1024 * 512) (fat32int b DE_SIZE)) by lia.
    rewrite (ltb_b2z_one (32 * (2 * 1024 * 1024))
               (fat32int2 b DE_HIGHCLUST DE_STARTCLUST)) by lia.
    rewrite (ltb_b2z_one (128 * (2 * 1024 * 1024))
               (fat32int2 b DE_HIGHCLUST DE_STARTCLUST)) by lia.
    change (if negb (50 =? 0) && negb (50 =? 100) then 1 else 0) with 1.
    repeat match goal with
           | |- context [if ?c then 1 else 0] =>
               let x := fresh "x" in
               pose proof (b2z_nonneg c);
               set (x := if c then 1 else 0) in *; clearbody x
           end.
    lia. }
  split; [exact Hw|].
  intros Hv. apply (Hcases (default_fat_config last_year) Hv).
  cbn [default_fat_config opt_max_weird_count]. lia.
Qed.

Lemma fat_weird_cutoff_witness :
  (128 * CLUSTERS_IN_1GiB < fat32int2 weird_file_entry DE_HIGHCLUST DE_STARTCLUST /\
   1024 * 1024 * 512 < fat32int weird_file_entry DE_SIZE /\
   byte_at weird_file_entry DE_CTIMETEN = 50) /\
  5 <= fat_weird_count (default_fat_config 2025) weird_file_entry.
Proof.
  split; [vm_compute; repeat split; reflexivity|].
  apply (proj2 (fat_weird_cutoff (default_fat_config 2025) 2025 weird_file_entry));
    vm_compute; reflexivity.
Defined.

(** ** NTFS MFT records *)

Lemma only_range_ok {A} (a : A) : only_range (Ok a).
Proof. intros e H. discriminate. Qed.

Lemma only_range_bind {A B} (m : result A) (f : A -> result B) :
  only_range m -> (forall a, only_range (f a)) -> only_range (bind m f).
Proof.
  intros Hm Hf e H. destruct m as [a|e']; simpl in H; [exact (Hf a e H)|].
  inversion H; subst. exact (Hm e eq_refl).
Qed.

Lemma only_range_get_le n i w : only_range (get_le n i w).
Proof.
  intros e. unfold get_le. destruct (sb_bufsize n <? i + Z.of_nat w);
    intros H; inversion H; reflexivity.
Qed.

Ltac only_range_tac :=
  repeat match goal with
  | |- only_range (bind _ _) => apply only_range_bind; [|intro]
  | |- only_range (get_le _ _ _) => apply only_range_get_le
  | |- only_range (get8u _ _) => apply only_range_get_le
  | |- only_range (get16u _ _) => apply only_range_get_le
  | |- only_range (get32u _ _) => apply only_range_get_le
  | |- only_range (get64u _ _) => apply only_range_get_le
  | |- only_range (Ok _) => apply only_range_ok
  | |- only_range (if ?c then _ else _) => destruct c
  | |- only_range (match ?x with _ => _ end) => destruct x
  end.

Section NtfsProofs.

Variable microsoftDateToISODate : Z -> string.
Variable safe_utf16to8 : list Z -> string.

Lemma read_utf16_only_range n pos k : only_range (read_utf16 n pos k).
Proof.
  revert pos. induction k as [|k IH]; intros pos; simpl; only_range_tac; auto.
Qed.

Lemma ntfs_fname_only_range n a st :
  only_range (ntfs_fname microsoftDateToISODate safe_utf16to8 n a st).
Proof.
  unfold ntfs_fname. cbv zeta. only_range_tac. apply read_utf16_only_range.
Qed.

Lemma ntfs_attr_walk_only_range fuel n a st :
  only_range (ntfs_attr_walk microsoftDateToISODate safe_utf16to8 fuel n a st).
Proof.
  revert a st. induction fuel as [|f IH]; intros a st; simpl; [apply only_range_ok|].
  cbv zeta. only_range_tac; auto using ntfs_fname_only_range;
    unfold ntfs_si, ntfs_objid; cbv zeta; only_range_tac.
Qed.

Lemma ntfs_candidate_only_range n :
  only_range (ntfs_candidate microsoftDateToISODate safe_utf16to8 n).
Proof.
  unfold ntfs_candidate. cbv zeta. only_range_tac. apply ntfs_attr_walk_only_range.
Qed.

Lemma ntfs_scan_from_flat fuel sb base :
  ntfs_scan_from microsoftDateToISODate safe_utf16to8 fuel sb base =
    Ok (flat_map (candidate_output microsoftDateToISODate safe_utf16to8 sb) (ntfs_bases fuel (sb_pagesize sb) base)).
Proof.
  revert base. induction fuel as [|f IH]; intros base; [reflexivity|].
  cbn [ntfs_scan_from ntfs_bases].
  destruct (base <? sb_pagesize sb); cbn [negb]; [|reflexivity].
  cbn [flat_map]. unfold candidate_output at 1. cbv zeta.
  destruct (sb_bufsize (sbuf_sub sb base 1024) =? 1024); cbn [negb app]; [|apply IH].
  pose proof (ntfs_candidate_only_range (sbuf_sub sb base 1024)) as Hr.
  destruct (ntfs_candidate microsoftDateToISODate safe_utf16to8 (sbuf_sub sb base 1024))
    as [[r|]|e] eqn:E.
  - rewrite IH. reflexivity.
  - apply IH.
  - rewrite (Hr e eq_refl). apply IH.
Qed.

End NtfsProofs.

(** Claim C7: in [scan_ntfsdirs] every typed read throws the range error
    exactly when it passes the end of the 1024-byte candidate; a candidate
    fails only with that error, and the failure only drops that candidate:
    the records written are those of the 512-byte-aligned candidates taken
    one by one, a failing candidate contributing nothing; and an attribute
    header of length zero ends the attribute walk of the current record,
    leaving its state as it was. *)
Theorem ntfs_candidate_isolation dates utf8 :
  (forall n i w, sb_bufsize n < i + Z.of_nat w -> get_le n i w = Err RangeException) /\
  (forall n i w, i + Z.of_nat w <= sb_bufsize n -> get_le n i w = Ok (le_value n i w)) /\
  (forall n e, ntfs_candidate dates utf8 n = Err e -> e = RangeException) /\
  (forall sb,
     scan_ntfsdirs dates utf8 sb =
       Ok (flat_map (candidate_output dates utf8 sb)
            (ntfs_bases (S (Z.to_nat (sb_pagesize sb / 512))) (sb_pagesize sb) 0))) /\
  (forall fuel n attr_off st,
     attr_off + SIZEOF_NTFS_ATTR < sb_bufsize n ->
     get32u n (attr_off + 0) <> Err RangeException ->
     get32u n (attr_off + 4) = Ok 0 ->
     ntfs_attr_walk dates utf8 (S fuel) n attr_off st = Ok st).
Proof.
  split; [|split; [|split; [|split]]].
  - intros n i w H. unfold get_le. apply Z.ltb_lt in H. rewrite H. reflexivity.
  - intros n i w H. unfold get_le. apply Z.ltb_ge in H. rewrite H. reflexivity.
  - intros n e H. exact (ntfs_candidate_only_range dates utf8 n e H).
  - intros sb. unfold scan_ntfsdirs. apply ntfs_scan_from_flat.
  - intros fuel n attr_off st Hlt Hty Hlen. simpl.
    apply Z.ltb_lt in Hlt. rewrite Hlt. simpl.
    destruct (get32u n (attr_off + 0)) as [ty|e] eqn:Et.
    + simpl. rewrite Hlen. reflexivity.
    + pose proof (only_range_get_le n (attr_off + 0) 4 e Et) as He.
      subst e. contradiction.
Qed.

(** An empty 1024-byte candidate: its attribute at 56 has length zero. *)
Lemma ntfs_candidate_isolation_witness :
  (56 + SIZEOF_NTFS_ATTR < sb_bufsize (mk_sbuf 0 1024 1024 (fun _ => 0)) /\
   get32u (mk_sbuf 0 1024 1024 (fun _ => 0)) (56 + 0) <> Err RangeException /\
   get32u (mk_sbuf 0 1024 1024 (fun _ => 0)) (56 + 4) = Ok 0) /\
  ntfs_attr_walk (fun _ => EmptyString) (fun _ => EmptyString) 1024
    (mk_sbuf 0 1024 1024 (fun _ => 0)) 56 (mk_ntfs_state [] EmptyString 0) =
    Ok (mk_ntfs_state [] EmptyString 0).
Proof.
  split; [split; [vm_compute; reflexivity | split; [vm_compute; discriminate | vm_compute; reflexivity]]|].
  apply (proj2 (proj2 (proj2 (proj2
           (ntfs_candidate_isolation (fun _ => EmptyString) (fun _ => EmptyString)))))
           1023%nat); vm_compute; [reflexivity | discriminate | reflexivity].
Defined.

(** ** The facebook scanner *)

(** Claim C9 (counterexample): on a 5000-byte page with [pokesText] at
    4000 the scanner writes the window [(1952, 3038)]: 2048 bytes before the
    hit but only 990 after it, ending at 4990, ten bytes short of the end of
    the buffer, where a centred window clipped to the buffer would end at
    5000. *)
Lemma facebook_window_short :
  Z.of_nat (List.length pokes_page) = 5000 /\
  scan_facebook pokes_page = [(1952, 3038)] /\
  sbuf_find pokes_page (ascii_codes "pokesText") 0 = 4000 /\
  1952 + 3038 = 5000 - 10.
Proof. vm_compute. repeat split; reflexivity. Qed.

(** Claim C9 (amended): a round of the loop for one needle at cursor [i]
    (with [i + 50 < len]) that finds the needle at [location >= 1] writes
    nothing when [location] lies strictly within 2048 bytes of an offset
    already used on the page, and otherwise records [location] and writes the
    window [(begin, length)] with [begin = max 0 (location - 2048)] and
    [begin + length = min (begin + 4096) (len - 10)]: the window starts 2048
    bytes before the hit (or at 0) and is cut ten bytes before the end of
    the buffer; either way the search resumes at [location + 4097].  Every
    window lies in [0, len - 10] and has at most 4096 bytes. *)
Theorem facebook_loop_step fuel buf needle i used out :
  let len := Z.of_nat (List.length buf) in
  let location := sbuf_find buf needle i in
  (i + 50 < len -> 1 <= location ->
   facebook_needle_loop (S fuel) buf needle i used out =
     if existsb (fun o => (o - 2048 <? location) && (location <? o + 2048)) used
     then facebook_needle_loop fuel buf needle (location + 4097) used out
     else facebook_needle_loop fuel buf needle (location + 4097) (used ++ [location])
            (out ++ [facebook_window len location])) /\
  (forall len' loc, 50 < len' -> 0 < loc < len' ->
   let '(b, l) := facebook_window len' loc in
   b = Z.max 0 (loc - 2048) /\ b + l = Z.min (b + 4096) (len' - 10) /\
   0 <= b <= loc /\ 0 <= l <= 4096 /\ b + l <= len' - 10).
Proof.
  intros len location. split.
  - intros Hi Hl. cbn [facebook_needle_loop]. fold len. fold location.
    replace (i + 50 <? len) with true by (symmetry; apply Z.ltb_lt; exact Hi).
    cbn [negb]. replace (location <? 1) with false by (symmetry; apply Z.ltb_ge; lia).
    unfold value_used.
    replace (existsb (fun o => (o - window / 2 <? location) && (o + window / 2 >? location)) used)
      with (existsb (fun o => (o - 2048 <? location) && (location <? o + 2048)) used).
    + replace (location + window + 1) with (location + 4097) by (unfold window; lia).
      destruct (existsb _ used); reflexivity.
    + clear Hi Hl. induction used as [|o us IH]; [reflexivity|].
      cbn [existsb]. rewrite IH, Z.gtb_ltb. reflexivity.
  - intros len' loc Hlen Hloc. unfold facebook_window, window.
    change (4096 / 2) with 2048.
    rewrite !Z.gtb_ltb.
    destruct (2048 <? loc) eqn:E1;
      [apply Z.ltb_lt in E1 | apply Z.ltb_ge in E1];
      match goal with
      | |- context [if len' <? ?c + 4096 + 10 then _ else _] =>
          destruct (len' <? c + 4096 + 10) eqn:E2;
          [apply Z.ltb_lt in E2 | apply Z.ltb_ge in E2]
      end; repeat split; lia.
Qed.

Lemma facebook_loop_step_witness :
  (0 + 50 < Z.of_nat (List.length pokes_page) /\
   1 <= sbuf_find pokes_page (ascii_codes "pokesText") 0) /\
  facebook_needle_loop 2 pokes_page (ascii_codes "pokesText") 0 [] [] =
    facebook_needle_loop 1 pokes_page (ascii_codes "pokesText") (4000 + 4097) [4000]
      [facebook_window 5000 4000].
Proof.
  split; [split; vm_compute; [reflexivity | discriminate]|].
  rewrite (proj1 (facebook_loop_step 1 pokes_page (ascii_codes "pokesText") 0 [] [])
             ltac:(vm_compute; reflexivity) ltac:(vm_compute; discriminate)).
  vm_compute. reflexivity.
Defined.

(** Claim C10: [sbuf_t::find] returning 0, a needle at offset 0, stops the
    loop for that needle at once, as a miss does ([location < 1]): nothing is
    written and no offset is recorded, whatever follows in the page. *)
Theorem facebook_hit_at_zero_stops fuel buf needle used out :
  sbuf_find buf needle 0 = 0 ->
  facebook_needle_loop fuel buf needle 0 used out = (used, out).
Proof.
  intros H. destruct fuel as [|f]; [reflexivity|].
  cbn [facebook_needle_loop].
  destruct (negb (0 + 50 <? Z.of_nat (List.length buf))); [reflexivity|].
  rewrite H. reflexivity.
Qed.

Lemma facebook_hit_at_zero_stops_witness :
  sbuf_find pokes_at_zero_page (ascii_codes "pokesText") 0 = 0 /\
  sbuf_find pokes_at_zero_page (ascii_codes "pokesText") 1 = 40 /\
  facebook_needle_loop 101 pokes_at_zero_page (ascii_codes "pokesText") 0 [] [] = ([], []).
Proof.
  split; [vm_compute; reflexivity|]. split; [vm_compute; reflexivity|].
  apply facebook_hit_at_zero_stops. vm_compute. reflexivity.
Defined.

(** * Further properties *)

(** ** Opened raw images *)

Lemma segs_after_le l o o' : o <= o' -> (segs_after l o' <= segs_after l o)%nat.
Proof.
  intros H. induction l as [|a l IH]; simpl; [lia|].
  destruct (Z.ltb_spec o' (fi_offset a + fi_length a)),
           (Z.ltb_spec o (fi_offset a + fi_length a)); lia.
Qed.

Lemma segs_after_lt l fi o o' :
  In fi l -> o < fi_offset fi + fi_length fi <= o' ->
  (segs_after l o' < segs_after l o)%nat.
Proof.
  intros Hin H. induction l as [|a l IH]; simpl in *; [contradiction|].
  destruct Hin as [-> | Hin].
  - pose proof (segs_after_le l o o' ltac:(lia)).
    destruct (Z.ltb_spec o' (fi_offset fi + fi_length fi)),
             (Z.ltb_spec o (fi_offset fi + fi_length fi)); lia.
  - specialize (IH Hin).
    destruct (Z.ltb_spec o' (fi_offset a + fi_length a)),
             (Z.ltb_spec o (fi_offset a + fi_length a)); lia.
Qed.

Lemma segs_after_length l o : (segs_after l o <= List.length l)%nat.
Proof.
  induction l as [|a l IH]; simpl; [lia|].
  destruct (o <? fi_offset a + fi_length a); lia.
Qed.

Lemma contiguous_cover s l o :
  contiguous_from s l -> s <= o < s + total_length l ->
  exists fi, In fi l /\ seg_contains fi o.
Proof.
  revert s. induction l as [|a l IH]; intros s Hc Ho; simpl in *; [lia|].
  destruct Hc as (Ha & Hla & Hc). unfold total_length in *. simpl in Ho.
  destruct (Z.ltb_spec o (s + fi_length a)).
  - exists a. unfold seg_contains. split; auto. lia.
  - destruct (IH (s + fi_length a) Hc ltac:(unfold total_length; lia)) as (fi & ? & ?).
    eauto.
Qed.

Lemma contiguous_end_le s l fi :
  contiguous_from s l -> In fi l -> fi_offset fi + fi_length fi <= s + total_length l.
Proof.
  revert s. induction l as [|a l IH]; intros s Hc Hin; simpl in *; [contradiction|].
  destruct Hc as (Ha & Hla & Hc). unfold total_length in *. simpl.
  pose proof (fold_right_nonneg := contiguous_from_nonneg).
  destruct Hin as [-> | Hin].
  - assert (0 <= fold_right (fun fi acc => fi_length fi + acc) 0 l).
    { clear IH Hla Ha. revert Hc. generalize (s + fi_length fi). induction l as [|b l IH2]; simpl; intros t Hc; [lia|].
      destruct Hc as (? & ? & Hc). specialize (IH2 _ Hc). lia. }
    lia.
  - specialize (IH _ Hc Hin). lia.
Qed.

Lemma image_byte_at fs s l fi o sz d :
  contiguous_from s l -> In fi l -> seg_contains fi o ->
  fs_lookup fs (fi_name fi) = Some (NFile sz d) ->
  image_byte fs l o = d (o - fi_offset fi).
Proof.
  intros Hc Hin Ho Hl. unfold image_byte.
  destruct (find_offset l o) as [fi2|] eqn:E.
  - destruct (find_offset_some _ _ _ E) as [Hin2 Ho2].
    rewrite (contiguous_from_unique s l o fi2 fi Hc Hin2 Hin Ho2 Ho), Hl. reflexivity.
  - exfalso. exact (find_offset_none _ _ E fi Hin Ho).
Qed.

Lemma same_image_refl p : same_image p p.
Proof. repeat split. Qed.

Lemma same_image_trans p1 p2 p3 : same_image p1 p2 -> same_image p2 p3 -> same_image p1 p3.
Proof. unfold same_image. intros (? & ? & ? & ? & ?) (? & ? & ? & ? & ?). repeat split; congruence. Qed.

Lemma pread_switch fs p fi :
  raw_ready fs p -> In fi (file_list p) ->
  exists p',
    (if String.eqb (fi_name fi) (current_file_name p) then Ok p
     else if os_open fs (fi_name fi) <=? 0 then Err (NoSuchFile "pread: Cannot ::open file")
          else Ok (set_current p (fi_name fi) (os_open fs (fi_name fi)))) = Ok p' /\
    same_image p p' /\ current_file_name p' = fi_name fi /\ 0 <= current_fd p' /\
    raw_ready fs p'.
Proof.
  intros Hr Hin. pose proof Hr as (Hinv & Hfiles & Hcur).
  destruct (String.eqb_spec (fi_name fi) (current_file_name p)) as [E|E].
  - exists p. split; [reflexivity|]. split; [apply same_image_refl|].
    split; [auto|]. split; [apply (Hcur fi Hin E)|exact Hr].
  - rewrite Forall_forall in Hfiles. destruct (Hfiles fi Hin) as [d Hd].
    unfold os_open. rewrite Hd. cbn.
    eexists. split; [reflexivity|]. unfold same_image, set_current; simpl.
    split; [repeat split; auto|]. split; [reflexivity|]. split; [lia|].
    split; [exact Hinv|]. split; [rewrite Forall_forall; exact Hfiles|].
    simpl. intros; lia.
Qed.

Lemma pread_fuel_spec fuel fs p buf dst bytes offset :
  raw_ready fs p -> 0 <= offset -> 0 <= bytes ->
  (segs_after (file_list p) offset < fuel)%nat ->
  exists p' buf',
    pread_fuel fuel fs p buf dst bytes offset
      = Ok (p', pread_count (raw_filesize p) bytes offset, buf') /\
    same_image p p' /\ raw_ready fs p' /\
    forall j, buf' j =
      if (dst <=? j) && (j <? dst + pread_count (raw_filesize p) bytes offset)
      then image_byte fs (file_list p) (offset + (j - dst)) else buf j.
Proof.
  revert p buf dst bytes offset.
  induction fuel as [|fuel IH]; intros p buf dst bytes offset Hr Ho Hb Hf; [lia|].
  pose proof Hr as ((Hc & Hs) & Hfiles & Hcur).
  cbn [pread_fuel].
  destruct (find_offset (file_list p) offset) as [fi|] eqn:Ef.
  2:{
    assert (raw_filesize p <= offset) as Hge.
    { destruct (Z_lt_ge_dec offset (raw_filesize p)) as [Hlt|]; [|lia].
      destruct (contiguous_cover 0 _ offset Hc ltac:(lia)) as (fi & Hin & Hco).
      exfalso. exact (find_offset_none _ _ Ef fi Hin Hco). }
    unfold pread_count. rewrite (proj2 (Z.ltb_ge _ _) Hge).
    exists p, buf. split; [reflexivity|]. split; [apply same_image_refl|]. split; [exact Hr|].
    intros j. destruct (Z.leb_spec dst j), (Z.ltb_spec j (dst + 0)); simpl; auto; lia. }
  destruct (find_offset_some _ _ _ Ef) as [Hin Hco].
  destruct (pread_switch fs p fi Hr Hin) as (p1 & Hsw & Hsame1 & Hname1 & Hfd1 & Hr1).
  rewrite Hsw. cbn [bind].
  pose proof Hfiles as Hfiles'. rewrite Forall_forall in Hfiles'.
  destruct (Hfiles' fi Hin) as [d Hd].
  pose proof (contiguous_from_nonneg _ _ _ Hc Hin) as Hlen.
  pose proof (contiguous_end_le _ _ _ Hc Hin) as Hend.
  pose proof Hco as Hco'. unfold seg_contains in Hco.
  set (local := offset - fi_offset fi).
  set (k1 := Z.min bytes (fi_length fi - local)).
  assert (os_pread64 fs p1 buf dst bytes local = (k1, mem_copy buf dst k1 d local)) as Hread.
  { unfold os_pread64. rewrite (proj2 (Z.ltb_ge _ _) Hfd1), Hname1, Hd, Z2N.id by lia.
    rewrite (proj2 (Z.ltb_lt local (fi_length fi))) by (unfold local; lia). reflexivity. }
  rewrite Hread. cbn beta iota zeta.
  assert (0 <= k1) as Hk1 by (unfold k1, local; lia).
  rewrite (proj2 (Z.ltb_ge k1 0)) by lia.
  destruct Hsame1 as (Hsf & Hsps & Hsmg & Hsl & Hsz).
  assert (Hbyte : forall j, dst <= j < dst + k1 ->
            d (local + (j - dst)) = image_byte fs (file_list p) (offset + (j - dst))).
  { intros j Hj.
    rewrite (image_byte_at fs 0 _ fi (offset + (j - dst)) (Z.to_N (fi_length fi)) d Hc Hin);
      [| unfold seg_contains, k1, local in *; lia | exact Hd].
    f_equal. unfold local. lia. }
  destruct (Z.eqb_spec k1 bytes) as [Heq|Hne].
  - assert (pread_count (raw_filesize p) bytes offset = k1) as Hpc.
    { unfold pread_count. rewrite (proj2 (Z.ltb_lt _ _)) by lia. unfold k1, local in *. lia. }
    rewrite Hpc, Heq. exists p1, (mem_copy buf dst bytes d local).
    split; [reflexivity|]. split; [repeat split; auto|]. split; [exact Hr1|].
    intros j. destruct (Z.leb_spec dst j), (Z.ltb_spec j (dst + bytes)); simpl.
    + rewrite mem_copy_in by lia. apply Hbyte. lia.
    + rewrite mem_copy_out by lia. reflexivity.
    + rewrite mem_copy_out by lia. reflexivity.
    + rewrite mem_copy_out by lia. reflexivity.
  - assert (k1 = fi_length fi - local) as Hk1e by (unfold k1 in *; lia).
    assert (0 < k1) as Hk1p by (unfold local in *; lia).
    destruct (IH p1 (mem_copy buf dst k1 d local) (dst + k1) (bytes - k1) (offset + k1))
      as (p2 & buf2 & Hcall & Hsame2 & Hr2 & Hbuf2); auto; try lia.
    { rewrite Hsl.
      pose proof (segs_after_lt _ fi offset (offset + k1) Hin ltac:(unfold local in *; lia)).
      lia. }
    rewrite Hcall. cbn beta iota zeta.
    rewrite Hsz in *. rewrite Hsl in Hbuf2.
    set (k2 := pread_count (raw_filesize p) (bytes - k1) (offset + k1)) in *.
    assert (0 <= k2) as Hk2.
    { unfold k2, pread_count. destruct (Z.ltb_spec (offset + k1) (raw_filesize p)); lia. }
    cbn [bind].
    rewrite (proj2 (Z.ltb_ge k2 0)) by lia.
    rewrite (proj2 (Z.eqb_neq k1 0)) by lia.
    assert (k1 + k2 = pread_count (raw_filesize p) bytes offset) as Hsum.
    { unfold k2, pread_count.
      rewrite (proj2 (Z.ltb_lt offset (raw_filesize p))) by lia.
      destruct (Z.ltb_spec (offset + k1) (raw_filesize p)); unfold local in *; lia. }
    rewrite <- Hsum. exists p2, buf2.
    split; [reflexivity|].
    split; [apply (same_image_trans p p1 p2); [repeat split; auto|exact Hsame2]|].
    split; [exact Hr2|].
    intros j. rewrite Hbuf2.
    destruct (Z.leb_spec (dst + k1) j), (Z.ltb_spec j (dst + k1 + k2)),
             (Z.leb_spec dst j), (Z.ltb_spec j (dst + (k1 + k2))); simpl; try lia;
      first [ f_equal; lia
            | rewrite mem_copy_in by lia; apply Hbyte; lia
            | rewrite mem_copy_out by lia; reflexivity ].
Qed.

(** Reading an opened image: on an image in the state [process_raw::open]
    leaves, [process_raw::pread] of [bytes] at [offset] never throws; it
    returns [min bytes (size - offset)] (0 at or past the end), fills
    [buf[dst ..]] with that many image bytes from [offset] on, across
    segment boundaries, leaves the rest of [buf] as it was, and keeps the
    image as it was. *)
Theorem pread_reads_image fs p buf dst bytes offset :
  raw_ready fs p -> 0 <= offset -> 0 <= bytes ->
  exists p' buf',
    pread fs p buf dst bytes offset
      = Ok (p', pread_count (raw_filesize p) bytes offset, buf') /\
    same_image p p' /\ raw_ready fs p' /\
    forall j, buf' j =
      if (dst <=? j) && (j <? dst + pread_count (raw_filesize p) bytes offset)
      then image_byte fs (file_list p) (offset + (j - dst)) else buf j.
Proof.
  intros Hr Ho Hb. unfold pread. apply pread_fuel_spec; auto.
  pose proof (segs_after_length (file_list p) offset). lia.
Qed.

Lemma add_file_opening fs p fname p' :
  fs_lookup fs EmptyString = None ->
  opening fs p -> add_file fs p fname = Ok p' -> opening fs p'.
Proof.
  intros He (Hi & Hf & Hn & Hc) H.
  pose proof (add_file_inv fs p fname p' Hi H) as Hi'.
  unfold add_file, file_size in H.
  destruct (fs_lookup fs fname) as [[sz d|ch]|] eqn:E; simpl in H; try discriminate.
  injection H as <-. unfold opening, set_file_list; simpl.
  split; [exact Hi'|]. split; [|split; [|exact Hc]].
  - apply Forall_app. split; [exact Hf|]. constructor; [|constructor].
    exists d. simpl. rewrite N2Z.id. exact E.
  - apply Forall_app. split; [exact Hn|]. constructor; [|constructor].
    simpl. intros ->. congruence.
Qed.

Lemma probe_loop_opening fuel fs templ num p p' :
  fs_lookup fs EmptyString = None ->
  opening fs p -> probe_loop fuel fs templ num p = Ok p' -> opening fs p'.
Proof.
  intros He. revert num p. induction fuel as [|f IH]; intros num p Hp H; simpl in H.
  - injection H as <-. exact Hp.
  - destruct (probe_name templ num) as [name|]; [|discriminate].
    destruct (negb (access_ok fs name)).
    + injection H as <-. exact Hp.
    + destruct (add_file fs p name) as [p1|e] eqn:E;
        simpl in H; [|discriminate].
      eapply IH; [|exact H]. eapply add_file_opening; eauto.
Qed.

Lemma opening_ready fs p : opening fs p -> raw_ready fs p.
Proof.
  intros (Hi & Hf & Hn & Hc). split; [exact Hi|]. split; [exact Hf|].
  intros fi Hin Hname. rewrite Forall_forall in Hn. exfalso.
  apply (Hn fi Hin). rewrite Hname, Hc. reflexivity.
Qed.

(** [process_raw::open] of a name, when no file has the empty path, leaves
    the image in the state [pread_reads_image] assumes. *)
Theorem process_raw_open_ready fs fname ps mg p :
  fs_lookup fs EmptyString = None ->
  process_raw_open fs (process_raw_new fname ps mg) = Ok p -> raw_ready fs p.
Proof.
  intros He H. apply opening_ready.
  unfold process_raw_open in H.
  destruct (add_file fs (process_raw_new fname ps mg) (image_fname (process_raw_new fname ps mg)))
    as [p1|e] eqn:E; simpl in H; [|discriminate].
  assert (opening fs p1) as H1.
  { eapply add_file_opening; [exact He| |exact E].
    repeat split; simpl; auto. }
  destruct (is_multipart_file fname).
  - destruct (make_list_template fname) as [templ num].
    eapply probe_loop_opening; eauto.
  - injection H as <-. exact H1.
Qed.

Lemma fs_small_ready ps mg : raw_ready fs_small (raw_opened 100 ps mg).
Proof.
  split; [split; simpl; lia|]. split.
  - repeat constructor. exists (fun i => i). reflexivity.
  - intros fi [<- | []]. simpl. discriminate.
Qed.

(** Claim C1: [process_raw::pread] returns 0, leaving the buffer as it
    was, when no segment holds the offset.  On an opened image, when the
    segment [fi] holds [offset], the first [got = fi_offset + fi_length -
    offset] bytes (or [bytes], if fewer) come from [fi]'s file at
    [offset - fi_offset]; when [got < bytes] the rest of the buffer is what
    a read of [bytes - got] at [offset + got] into [dst + got] writes, and
    the total returned is [got] plus what that read returns.  On three 1 MiB
    parts [img.000], [img.001], [img.002] opened by [process_raw::open], a
    read of 512 bytes at 1 MiB - 256 returns 512: the buffer receives the
    last 256 bytes of [img.000] and then the first 256 bytes of [img.001],
    and nothing else. *)
Theorem pread_split_boundary :
  (forall fs p buf dst bytes offset,
     find_offset (file_list p) offset = None ->
     pread fs p buf dst bytes offset = Ok (p, 0, buf)) /\
  (forall fs p buf dst bytes offset fi sz d,
     raw_ready fs p -> 0 <= offset -> 0 <= bytes ->
     find_offset (file_list p) offset = Some fi ->
     fs_lookup fs (fi_name fi) = Some (NFile sz d) ->
     let got := fi_offset fi + fi_length fi - offset in
     exists p' buf',
       pread fs p buf dst bytes offset
         = Ok (p', pread_count (raw_filesize p) bytes offset, buf') /\
       (forall j, dst <= j < dst + Z.min bytes got ->
                  buf' j = d (offset - fi_offset fi + (j - dst))) /\
       (got < bytes ->
        exists p2 n2 buf2,
          pread fs p buf (dst + got) (bytes - got) (offset + got) = Ok (p2, n2, buf2) /\
          pread_count (raw_filesize p) bytes offset = got + n2 /\
          forall j, j < dst \/ dst + got <= j -> buf' j = buf2 j)) /\
  (forall d0 d1 d2 ps mg buf,
     exists p p' buf',
       process_raw_open (split_fs d0 d1 d2) (process_raw_new "img.000" ps mg) = Ok p /\
       pread (split_fs d0 d1 d2) p buf 0 512 (2 ^ 20 - 256) = Ok (p', 512, buf') /\
       (forall j, 0 <= j < 256 -> buf' j = d0 (2 ^ 20 - 256 + j)) /\
       (forall j, 256 <= j < 512 -> buf' j = d1 (j - 256)) /\
       (forall j, j < 0 \/ 512 <= j -> buf' j = buf j)).
Proof.
  split; [exact pread_no_segment|]. split.
  - intros fs p buf dst bytes offset fi sz d Hr Ho Hb Hf Hd got.
    pose proof Hr as ((Hc & Hs) & _ & _).
    destruct (find_offset_some _ _ _ Hf) as [Hin Hco].
    pose proof (contiguous_end_le _ _ _ Hc Hin) as Hend.
    pose proof Hco as Hco'. unfold seg_contains in Hco.
    assert (Hfuel : forall o, (segs_after (file_list p) o < S (List.length (file_list p)))%nat)
      by (intros o; pose proof (segs_after_length (file_list p) o); lia).
    destruct (pread_fuel_spec _ fs p buf dst bytes offset Hr Ho Hb (Hfuel offset))
      as (p' & buf' & Hp & _ & _ & Hb').
    exists p', buf'. split; [exact Hp|]. split.
    + intros j Hj. rewrite Hb'.
      destruct (Z.leb_spec dst j), (Z.ltb_spec j (dst + pread_count (raw_filesize p) bytes offset));
        simpl; unfold pread_count in *;
        destruct (Z.ltb_spec offset (raw_filesize p)); unfold got in *; try lia.
      rewrite (image_byte_at fs 0 _ fi (offset + (j - dst)) sz d Hc Hin);
        [f_equal; lia | unfold seg_contains; lia | exact Hd].
    + intros Hgot.
      destruct (pread_fuel_spec _ fs p buf (dst + got) (bytes - got) (offset + got) Hr
                  ltac:(unfold got; lia) ltac:(lia) (Hfuel (offset + got)))
        as (p2 & buf2 & Hp2 & _ & _ & Hb2).
      assert (Hsum : pread_count (raw_filesize p) bytes offset
                     = got + pread_count (raw_filesize p) (bytes - got) (offset + got)).
      { unfold pread_count, got in *.
        destruct (Z.ltb_spec offset (raw_filesize p)),
                 (Z.ltb_spec (offset + (fi_offset fi + fi_length fi - offset)) (raw_filesize p));
          lia. }
      exists p2, (pread_count (raw_filesize p) (bytes - got) (offset + got)), buf2.
      split; [exact Hp2|]. split; [exact Hsum|].
      intros j Hj. rewrite Hb', Hb2, Hsum.
      assert (0 < got) by (unfold got; lia).
      destruct (Z.leb_spec dst j), (Z.ltb_spec j (dst + (got + pread_count (raw_filesize p) (bytes - got) (offset + got)))),
               (Z.leb_spec (dst + got) j), (Z.ltb_spec j (dst + got + pread_count (raw_filesize p) (bytes - got) (offset + got)));
        simpl; try lia; try reflexivity.
      f_equal. lia.
  - intros d0 d1 d2 ps mg buf. do 3 eexists.
    split; [vm_compute; reflexivity|].
    split; [cbv -[mem_copy]; reflexivity|].
    repeat split; intros j Hj.
    + rewrite mem_copy_out by lia. rewrite mem_copy_in by lia. f_equal; lia.
    + rewrite mem_copy_in by lia. f_equal; lia.
    + rewrite !mem_copy_out by lia. reflexivity.
Qed.

Lemma pread_split_boundary_witness :
  find_offset (file_list (raw_opened 10000 4096 0)) 20000 = None /\
  pread [] (raw_opened 10000 4096 0) (fun _ => 0) 0 16 20000 =
    Ok (raw_opened 10000 4096 0, 0, (fun _ : Z => 0)) /\
  exists p' buf',
    pread fs_small (raw_opened 100 64 0) (fun _ => 0) 0 16 90 = Ok (p', 10, buf') /\
    buf' 0 = 90 /\ buf' 9 = 99 /\
    exists p2 n2 buf2,
      pread fs_small (raw_opened 100 64 0) (fun _ => 0) 10 6 100 = Ok (p2, n2, buf2) /\
      n2 = 0.
Proof.
  split; [reflexivity|]. split.
  - apply (proj1 pread_split_boundary). reflexivity.
  - pose proof (proj1 (proj2 pread_split_boundary) fs_small (raw_opened 100 64 0)
                  (fun _ => 0) 0 16 90 (mk_file_info "img.raw" 0 100) 100%N (fun i => i)
                  (fs_small_ready 64 0) ltac:(lia) ltac:(lia) eq_refl eq_refl) as H.
    cbv zeta in H. destruct H as (p' & buf' & Hp & Hin & Hrec).
    exists p', buf'. split; [exact Hp|].
    split; [rewrite Hin; [reflexivity | simpl; lia]|].
    split; [rewrite Hin; [reflexivity | simpl; lia]|].
    destruct (Hrec ltac:(simpl; lia)) as (p2 & n2 & buf2 & H2 & Hn2 & _).
    exists p2, n2, buf2. split; [exact H2|]. replace (pread_count (raw_filesize (raw_opened 100 64 0)) 16 90) with 10 in Hn2 by reflexivity.
    cbn [fi_offset fi_length] in Hn2. lia.
Defined.


Lemma pread_reads_image_witness :
  raw_ready fs_small (raw_opened 100 4096 0) /\
  exists p' buf',
    pread fs_small (raw_opened 100 4096 0) (fun _ => 0) 0 10 95 = Ok (p', 5, buf') /\
    buf' 0 = 95 /\ buf' 4 = 99 /\ buf' 5 = 0.
Proof.
  pose proof (fs_small_ready 4096 0) as Hr.
  split; [exact Hr|].
  destruct (pread_reads_image fs_small _ (fun _ => 0) 0 10 95 Hr ltac:(lia) ltac:(lia))
    as (p' & buf' & Hp & _ & _ & Hb).
  exists p', buf'. split; [exact Hp|].
  rewrite !Hb. vm_compute. repeat split; reflexivity.
Defined.

Lemma process_raw_open_ready_witness :
  exists p,
    process_raw_open (split_fs (fun _ => 0) (fun _ => 1) (fun _ => 2))
                     (process_raw_new "img.000" 4096 512) = Ok p /\
    raw_ready (split_fs (fun _ => 0) (fun _ => 1) (fun _ => 2)) p.
Proof.
  eexists. split; [vm_compute; reflexivity|].
  apply (process_raw_open_ready _ "img.000" 4096 512); [reflexivity | vm_compute; reflexivity].
Defined.

(** [process_raw::sbuf_alloc] at an offset inside an opened image (with
    [0 < pagesize + margin < 2^31] and the image below 2^63 bytes) asks
    [sbuf_malloc] for [n = min (pagesize + margin) (size - offset)] bytes.
    When the allocation succeeds it returns a buffer of [n] bytes whose
    page is [min pagesize n] bytes, positioned at the offset, holding the
    image bytes from the offset on; when it fails it throws
    [std::bad_alloc]. *)
Theorem sbuf_alloc_page sbuf_malloc_ok fs p it :
  raw_ready fs p -> 0 <= raw_offset it < raw_filesize p ->
  0 <= pagesize p -> 0 <= margin p -> 0 < pagesize p + margin p < 2 ^ 31 ->
  raw_filesize p < 2 ^ 63 ->
  let n := Z.min (pagesize p + margin p) (raw_filesize p - raw_offset it) in
  (sbuf_malloc_ok n = true ->
   exists p' buf,
     sbuf_alloc sbuf_malloc_ok fs p it
       = Ok (p', mk_sbuf (raw_offset it) n (Z.min (pagesize p) n) buf) /\
     same_image p p' /\ raw_ready fs p' /\
     forall j, buf j = if (0 <=? j) && (j <? n)
                       then image_byte fs (file_list p) (raw_offset it + j) else 0) /\
  (sbuf_malloc_ok n = false -> sbuf_alloc sbuf_malloc_ok fs p it = Err BadAlloc).
Proof.
  intros Hr Ho Hps Hmg Hpm Hsz n.
  unfold sbuf_alloc. cbv zeta.
  replace (if raw_filesize p <? u64 (raw_offset it + u64 (pagesize p + margin p))
           then u64 (raw_filesize p - raw_offset it) else u64 (pagesize p + margin p))
    with n.
  2:{ unfold u64. rewrite (Z.mod_small (pagesize p + margin p)) by lia.
      rewrite (Z.mod_small (raw_offset it + (pagesize p + margin p))) by lia.
      rewrite (Z.mod_small (raw_filesize p - raw_offset it)) by lia.
      unfold n. destruct (Z.ltb_spec (raw_filesize p) (raw_offset it + (pagesize p + margin p))); lia. }
  split; [|intros Hm; rewrite Hm; reflexivity].
  intros Hm. rewrite Hm. cbn [negb].
  replace (if n <? pagesize p then n else pagesize p) with (Z.min (pagesize p) n)
    by (destruct (Z.ltb_spec n (pagesize p)); lia).
  assert (0 < n < 2 ^ 31) as Hn by (unfold n; lia).
  destruct (pread_fuel_spec (S (List.length (file_list p))) fs p (fun _ => 0) 0 n (raw_offset it)
              Hr ltac:(lia) ltac:(lia)
              ltac:(pose proof (segs_after_length (file_list p) (raw_offset it)); lia))
    as (p' & buf & Hp & Hsame & Hr' & Hb).
  assert (pread_count (raw_filesize p) n (raw_offset it) = n) as Hc.
  { unfold pread_count. rewrite (proj2 (Z.ltb_lt _ _)) by lia. unfold n. lia. }
  rewrite Hc in Hp, Hb. unfold pread. rewrite Hp. cbn [bind].
  assert (int_of_ssize n = n) as Hi.
  { unfold int_of_ssize. rewrite Z.mod_small by lia.
    destruct (Z.leb_spec (2 ^ 31) n); lia. }
  rewrite Hi, (proj2 (Z.eqb_neq n 0)) by lia. rewrite (proj2 (Z.ltb_ge n 0)) by lia.
  exists p', buf. split; [reflexivity|]. split; [exact Hsame|]. split; [exact Hr'|].
  intros j. rewrite Hb. rewrite Z.add_0_l, Z.sub_0_r. reflexivity.
Qed.






Lemma sbuf_alloc_page_witness :
  (exists p' buf,
     sbuf_alloc (fun n => n <=? 2 ^ 40) fs_small (raw_opened 100 64 16) (mk_iterator 50 0 false)
       = Ok (p', mk_sbuf 50 50 50 buf) /\ buf 0 = 50 /\ buf 49 = 99 /\ buf 50 = 0) /\
  sbuf_alloc (fun _ => false) fs_small (raw_opened 100 64 16) (mk_iterator 50 0 false)
    = Err BadAlloc.
Proof.
  pose proof (fs_small_ready 64 16) as Hr.
  split.
  - destruct (sbuf_alloc_page (fun n => n <=? 2 ^ 40) fs_small (raw_opened 100 64 16)
                (mk_iterator 50 0 false) Hr) as (H & _); simpl; try lia.
    destruct (H ltac:(vm_compute; reflexivity)) as (p' & buf & Hs & _ & _ & Hb).
    exists p', buf. split; [exact Hs|]. rewrite !Hb. vm_compute. repeat split; reflexivity.
  - destruct (sbuf_alloc_page (fun _ => false) fs_small (raw_opened 100 64 16)
                (mk_iterator 50 0 false) Hr) as (_ & H); simpl; try lia.
    apply H. reflexivity.
Defined.

Lemma rfind_aux_some pat s i best k :
  rfind_aux pat s i best = Some k ->
  (exists j, k = (i + j)%nat /\ (j <= List.length s)%nat /\ prefix_at pat (skipn j s) = true) \/ best = Some k.
Proof.
  revert i best. induction s as [|a s IH]; intros i best H; simpl in H.
  - destruct (prefix_at pat []) eqn:E.
    + left. exists 0%nat. injection H as <-. split; [lia|]. split; [simpl; lia|]. exact E.
    + right. exact H.
  - destruct (IH _ _ H) as [(j & -> & Hj & Hp) | Hb].
    + left. exists (S j). split; [lia|]. split; [simpl; lia|]. exact Hp.
    + destruct (prefix_at pat (a :: s)) eqn:E.
      * left. exists 0%nat. injection Hb as <-. split; [lia|]. split; [simpl; lia|]. exact E.
      * right. exact Hb.
Qed.

Lemma rfind_aux_found pat s i best j :
  (j <= List.length s)%nat -> prefix_at pat (skipn j s) = true ->
  rfind_aux pat s i best <> None.
Proof.
  assert (Hkeep : forall s i best, best <> None -> rfind_aux pat s i best <> None).
  { induction s0 as [|a s0 IH]; intros i0 b0 Hb; simpl.
    - destruct (prefix_at pat []); congruence.
    - apply IH. destruct (prefix_at pat (a :: s0)); congruence. }
  revert i best j. induction s as [|a s IH]; intros i best j Hj Hp; simpl.
  - destruct j; [|simpl in Hj; lia]. simpl in Hp. rewrite Hp. discriminate.
  - destruct j as [|j].
    + simpl in Hp. apply Hkeep. rewrite Hp. discriminate.
    + apply (IH _ _ j); simpl in *; auto; lia.
Qed.

Lemma prefix_at_firstn pat l :
  prefix_at pat l = true -> firstn (List.length pat) l = pat.
Proof.
  revert l. induction pat as [|c pat IH]; intros l H; [reflexivity|].
  destruct l as [|b l]; simpl in H; [discriminate|].
  apply andb_true_iff in H as [Hc H]. apply Ascii.eqb_eq in Hc. subst.
  simpl. rewrite IH; auto.
Qed.

Lemma list_ascii_substring n m s :
  list_ascii_of_string (substring n m s) = firstn m (skipn n (list_ascii_of_string s)).
Proof.
  revert n m. induction s as [|a s IH]; intros n m.
  - destruct n, m; reflexivity.
  - destruct n as [|n].
    + destruct m as [|m]; [reflexivity|]. simpl. f_equal.
      rewrite IH. simpl. reflexivity.
    + simpl. apply IH.
Qed.

Lemma list_ascii_app s1 s2 :
  list_ascii_of_string (s1 ++ s2) = list_ascii_of_string s1 ++ list_ascii_of_string s2.
Proof. induction s1 as [|a s1 IH]; simpl; [reflexivity|]. rewrite IH. reflexivity. Qed.

Lemma list_ascii_inj s1 s2 : list_ascii_of_string s1 = list_ascii_of_string s2 -> s1 = s2.
Proof.
  intros H. rewrite <- (string_of_list_ascii_of_string s1), <- (string_of_list_ascii_of_string s2).
  rewrite H. reflexivity.
Qed.

Lemma length_list_ascii s : List.length (list_ascii_of_string s) = String.length s.
Proof. induction s; simpl; auto. Qed.

Lemma firstn_prefix_at pat l :
  firstn (List.length pat) l = pat -> prefix_at pat l = true.
Proof.
  revert l. induction pat as [|c pat IH]; intros l H; [reflexivity|].
  destruct l as [|b l]; simpl in H; [discriminate|].
  injection H as -> H. simpl. rewrite Ascii.eqb_refl. simpl. apply IH. exact H.
Qed.

Lemma prefix_at_app_r a b l :
  prefix_at (a ++ b) l = true -> prefix_at b (skipn (List.length a) l) = true.
Proof.
  revert l. induction a as [|c a IH]; intros l H; [exact H|].
  destruct l as [|x l]; simpl in H; [discriminate|].
  apply andb_true_iff in H as [_ H]. simpl. apply IH. exact H.
Qed.

Lemma prefix_at_app_l a b l :
  prefix_at (a ++ b) l = true -> prefix_at a l = true.
Proof.
  revert l. induction a as [|c a IH]; intros l H; [reflexivity|].
  destruct l as [|x l]; simpl in H; [discriminate|].
  apply andb_true_iff in H as [Hc H]. simpl. rewrite Hc. simpl. apply IH. exact H.
Qed.

Lemma ends_with_prefix s suf :
  ends_with s suf = true ->
  (String.length suf <= String.length s)%nat /\
  prefix_at (list_ascii_of_string suf)
            (skipn (String.length s - String.length suf) (list_ascii_of_string s)) = true.
Proof.
  unfold ends_with. destruct (Nat.ltb_spec (String.length s) (String.length suf)) as [_|Hle]; [discriminate|].
  intros H. apply String.eqb_eq in H. split; [exact Hle|].
  apply firstn_prefix_at. rewrite length_list_ascii.
  rewrite <- list_ascii_substring. rewrite H. reflexivity.
Qed.

Lemma template_at path p pat :
  (pat = "000" \/ pat = "001")%string ->
  prefix_at (list_ascii_of_string pat) (skipn p (list_ascii_of_string path)) = true ->
  (substring 0 p path ++ fmt03 (atoi_digits (substring p 3 path) + 1 - 1) ++
   substring (p + 3) (String.length path - (p + 3)) path)%string = path.
Proof.
  intros Hpat Hpre.
  assert (Hmid : substring p 3 path = pat).
  { apply list_ascii_inj. rewrite list_ascii_substring.
    apply prefix_at_firstn in Hpre.
    destruct Hpat as [-> | ->]; exact Hpre. }
  rewrite Hmid, Z.add_simpl_r.
  assert (Hf : fmt03 (atoi_digits pat) = pat) by (destruct Hpat as [-> | ->]; reflexivity).
  rewrite Hf, <- Hmid.
  apply list_ascii_inj. rewrite !list_ascii_app, !list_ascii_substring.
  set (L := list_ascii_of_string path).
  assert (List.length L = String.length path) as HL by apply length_list_ascii.
  rewrite (firstn_all2 (n := String.length path - (p + 3))) by (rewrite length_skipn; lia).
  rewrite skipn_0.
  replace (p + 3)%nat with (3 + p)%nat by lia. rewrite <- skipn_skipn.
  rewrite firstn_skipn, firstn_skipn. reflexivity.
Qed.

Lemma template_roundtrip path :
  is_multipart_file path = true ->
  exists p,
    make_list_template path =
      ((substring 0 p path ++ "%03d" ++
        substring (p + 3) (String.length path - (p + 3)) path)%string,
       atoi_digits (substring p 3 path) + 1) /\
    (substring 0 p path ++ fmt03 (atoi_digits (substring p 3 path) + 1 - 1) ++
     substring (p + 3) (String.length path - (p + 3)) path)%string = path.
Proof.
  intros Hm. unfold make_list_template.
  destruct (rfind "000" path) as [p|] eqn:E0.
  - exists p. split; [reflexivity|]. unfold rfind in E0.
    destruct (rfind_aux_some _ _ _ _ _ E0) as [(j & -> & _ & Hp) | Hb]; [|discriminate].
    apply template_at with (pat := "000"%string); auto.
  - assert (exists p, rfind "001" path = Some p) as [p E1].
    { unfold is_multipart_file in Hm.
      apply orb_true_iff in Hm as [Hm | Hm]; [apply orb_true_iff in Hm as [Hm | Hm]|].
      - exfalso. apply ends_with_prefix in Hm as [Hl Hp].
        apply (prefix_at_app_r (list_ascii_of_string ".") (list_ascii_of_string "000")) in Hp.
        rewrite skipn_skipn in Hp.
        unfold rfind in E0.
        eapply rfind_aux_found; [|exact Hp|exact E0].
        simpl in *; rewrite length_list_ascii; lia.
      - apply ends_with_prefix in Hm as [Hl Hp].
        apply (prefix_at_app_r (list_ascii_of_string ".") (list_ascii_of_string "001")) in Hp.
        rewrite skipn_skipn in Hp.
        unfold rfind. destruct (rfind_aux _ _ 0 None) as [q|] eqn:Eq; [eauto|].
        exfalso. eapply rfind_aux_found; [|exact Hp|exact Eq].
        simpl in *; rewrite length_list_ascii; lia.
      - apply ends_with_prefix in Hm as [Hl Hp].
        apply (prefix_at_app_l (list_ascii_of_string "001") (list_ascii_of_string ".vmdk")) in Hp.
        unfold rfind. destruct (rfind_aux _ _ 0 None) as [q|] eqn:Eq; [eauto|].
        exfalso. eapply rfind_aux_found; [|exact Hp|exact Eq].
        simpl in *; rewrite length_list_ascii; lia. }
    rewrite E1. exists p. split; [reflexivity|]. unfold rfind in E1.
    destruct (rfind_aux_some _ _ _ _ _ E1) as [(j & -> & _ & Hp) | Hb]; [|discriminate].
    apply template_at with (pat := "001"%string); auto.
Qed.

Lemma format_int_plain s r a :
  no_percent s = true -> format_int (s ++ r) a = option_map (append s) (format_int r a).
Proof.
  induction s as [|c s IH]; intros H; simpl.
  - destruct (format_int r a); reflexivity.
  - simpl in H. apply andb_true_iff in H as [Hc H]. apply negb_true_iff in Hc.
    rewrite Hc, IH by exact H. destruct (format_int r a); reflexivity.
Qed.

Lemma format_int_none s : no_percent s = true -> format_int s None = Some s.
Proof.
  induction s as [|c s IH]; intros H; [reflexivity|].
  simpl in H. apply andb_true_iff in H as [Hc H]. apply negb_true_iff in Hc.
  simpl. rewrite Hc, IH by exact H. reflexivity.
Qed.

Lemma format_template pre suf n :
  no_percent pre = true -> no_percent suf = true ->
  format_int (pre ++ "%03d" ++ suf) (Some n) = Some (pre ++ fmt03 n ++ suf)%string.
Proof.
  intros Hp Hs. rewrite format_int_plain by exact Hp. simpl.
  rewrite format_int_none by exact Hs. reflexivity.
Qed.

Lemma no_percent_substring n m s :
  no_percent s = true -> no_percent (substring n m s) = true.
Proof.
  revert n m. induction s as [|c s IH]; intros n m H; [destruct n, m; reflexivity|].
  simpl in H. apply andb_true_iff in H as [Hc H].
  destruct n as [|n]; [destruct m as [|m]|]; simpl; auto.
  rewrite Hc. simpl. auto.
Qed.

Lemma substring_all s k : (String.length s <= k)%nat -> substring 0 k s = s.
Proof.
  revert k. induction s as [|c s IH]; intros k H; [destruct k; reflexivity|].
  destruct k as [|k]; simpl in *; [lia|]. rewrite IH by lia. reflexivity.
Qed.

(** [make_list_template] on a multipart name whose path holds no [%] and
    fits in [PATH_MAX - 1] characters: [snprintf] of the template with
    [start - 1] gives back the name, so probing begins with the next part. *)
Theorem make_list_template_roundtrip path :
  is_multipart_file path = true -> no_percent path = true ->
  Z.of_nat (String.length path) < PATH_MAX ->
  let '(templ, start) := make_list_template path in
  probe_name templ (start - 1) = Some path.
Proof.
  intros Hm Hn Hl. destruct (template_roundtrip path Hm) as (p & -> & Hr).
  unfold probe_name, snprintf_int.
  rewrite format_template by (apply no_percent_substring; exact Hn).
  cbn [option_map]. rewrite Hr. f_equal. apply substring_all.
  unfold PATH_MAX in *. lia.
Qed.

Lemma make_list_template_roundtrip_witness :
  is_multipart_file "img.001" = true /\ no_percent "img.001" = true /\
  make_list_template "img.001" = ("img.%03d"%string, 2) /\
  probe_name "img.%03d" 1 = Some "img.001"%string.
Proof.
  split; [reflexivity|]. split; [reflexivity|]. split; [vm_compute; reflexivity|].
  exact (make_list_template_roundtrip "img.001" eq_refl eq_refl
           ltac:(unfold PATH_MAX; simpl; lia)).
Defined.

(** A [%] in the path is read by [snprintf] as part of the format: the
    template of [x%%y.000] probes [x%y.001], [x%y.002], ... *)
Example probe_name_percent :
  make_list_template "x%%y.000" = ("x%%y.%03d"%string, 1) /\
  probe_name "x%%y.%03d" 0 = Some "x%y.000"%string /\
  probe_name "x%%y.%03d" 1 = Some "x%y.001"%string.
Proof. vm_compute. repeat split. Qed.




(** ** Directory sources and pcap files *)

Lemma append_assoc_str (a b c : string) : (a ++ b ++ c)%string = ((a ++ b) ++ c)%string.
Proof. induction a as [|x a IH]; simpl; [reflexivity|]. rewrite IH. reflexivity. Qed.

Lemma path_join_prefix dir c : exists rest, path_join dir c = (dir ++ rest)%string.
Proof. unfold path_join. destruct (ends_with dir "/"); eauto. Qed.

Lemma walk_regular fuel fs dir q :
  In q (walk fuel fs dir) ->
  (exists sz d, fs_lookup fs q = Some (NFile sz d)) /\ exists rest, q = (dir ++ rest)%string.
Proof.
  revert dir. induction fuel as [|f IH]; intros dir H; simpl in H; [contradiction|].
  destruct (fs_lookup fs dir) as [[sz d|cs]|]; [contradiction| |contradiction].
  apply in_flat_map in H as (c & _ & Hc).
  destruct (path_join_prefix dir c) as [r Hr].
  destruct (fs_lookup fs (path_join dir c)) as [[sz d|cs']|] eqn:E.
  - destruct Hc as [<- | []]. split; eauto.
  - destruct (IH _ Hc) as [Hreg [r' ->]]. split; [exact Hreg|].
    rewrite Hr. exists (r ++ r')%string. symmetry. apply append_assoc_str.
  - contradiction.
Qed.

(** A directory opened by [image_process::open] lists only regular files found below it: every listed path names a file of the file system and starts with the directory name; no message is printed. *)
Theorem image_process_open_dir_files have_libewf ewf_open fs fn ps mg msgs src :
  image_process_open have_libewf ewf_open fs fn true ps mg = (msgs, Ok src) ->
  forall d files, src = SrcDir d files ->
  d = fn /\ msgs = [] /\
  forall q, In q files ->
    (exists sz data, fs_lookup fs q = Some (NFile sz data)) /\ exists rest, q = (fn ++ rest)%string.
Proof.
  intros H d files ->. unfold image_process_open in H.
  destruct (fs_lookup fs fn) as [[sz data|cs]|]; try discriminate.
  - destruct (String.eqb _ _ || contains fn ".E01.").
    + destruct have_libewf; [destruct (ewf_open fn) as [[|z|z]|e]|]; discriminate.
    + destruct (process_raw_open _ _); discriminate.
  - cbn [negb] in H.
    destruct (find _ cs); [discriminate|].
    injection H as <- <-. split; [reflexivity|]. split; [reflexivity|].
    intros q Hq. subst files. apply (walk_regular _ _ _ _ Hq).
Qed.

Lemma image_process_open_dir_files_witness :
  image_process_open false (fun _ => Ok 0) fs_tree "d" true 4096 0
    = ([], Ok (SrcDir "d" ["d/a"; "d/sub/b"]%string)) /\
  exists sz data, fs_lookup fs_tree "d/sub/b" = Some (NFile sz data).
Proof.
  assert (H : image_process_open false (fun _ => Ok 0) fs_tree "d" true 4096 0
                = ([], Ok (SrcDir "d" ["d/a"; "d/sub/b"]%string))) by (vm_compute; reflexivity).
  split; [exact H|].
  destruct (image_process_open_dir_files false (fun _ => Ok 0) fs_tree "d" 4096 0 _ _ H
              _ _ eq_refl) as (_ & _ & Hf).
  apply (Hf "d/sub/b"%string). simpl. auto.
Defined.

(** Iterating a directory source from [begin] with [increment_iterator]: after [n] steps the file number is [min n (number of files)], and after [max_blocks] steps the iterator has reached [end]. *)
Theorem process_dir_iteration files :
  Z.of_nat (List.length files) + 1 < 2 ^ 64 ->
  (forall n, file_number (Nat.iter n (process_dir_increment files) iterator_begin)
             = Z.min (Z.of_nat n) (Z.of_nat (List.length files))) /\
  file_number (Nat.iter (Z.to_nat (process_dir_max_blocks files)) (process_dir_increment files)
                        iterator_begin) = file_number (process_dir_end files).
Proof.
  intros Hb.
  assert (Hit : forall n, file_number (Nat.iter n (process_dir_increment files) iterator_begin)
                          = Z.min (Z.of_nat n) (Z.of_nat (List.length files))).
  { induction n as [|n IH]; [simpl; lia|].
    rewrite Nat.iter_succ. unfold process_dir_increment at 1. cbn [file_number].
    rewrite IH. unfold u64. rewrite Z.mod_small by lia.
    destruct (Z.ltb_spec (Z.of_nat (List.length files)) (Z.min (Z.of_nat n) (Z.of_nat (List.length files)) + 1));
      lia. }
  split; [exact Hit|]. rewrite Hit. unfold process_dir_max_blocks, process_dir_end.
  cbn [file_number]. rewrite Nat2Z.id. lia.
Qed.

Lemma process_dir_iteration_witness :
  Z.of_nat (List.length ["d/a"; "d/sub/b"]%string) + 1 < 2 ^ 64 /\
  file_number (Nat.iter 5 (process_dir_increment ["d/a"; "d/sub/b"]%string) iterator_begin) = 2.
Proof.
  split; [simpl; lia|].
  rewrite (proj1 (process_dir_iteration ["d/a"; "d/sub/b"]%string ltac:(simpl; lia)) 5%nat).
  reflexivity.
Defined.

Lemma pcap_writepkt_open max w h sb pos af ft f :
  fcap w = Some f ->
  pcap_writepkt max w h sb pos af ft
    = Ok (mk_pcap_writer (outpath_writable w) (Some (f ++ pcap_record max h sb pos af ft))).
Proof. intros Hf. unfold pcap_writepkt. rewrite Hf. reflexivity. Qed.

Lemma pcap_write_all_open max w pkts f :
  fcap w = Some f ->
  pcap_write_all max w pkts
    = Ok (mk_pcap_writer (outpath_writable w) (Some (f ++ List.concat (map (pkt_record max) pkts)))).
Proof.
  revert w f. induction pkts as [|[[[[h sb] pos] af] ft] rest IH]; intros w f Hf.
  - simpl. rewrite app_nil_r. destruct w; simpl in *; subst; reflexivity.
  - cbn [pcap_write_all]. rewrite (pcap_writepkt_open _ _ _ _ _ _ _ f Hf). cbn [bind].
    rewrite (IH (mk_pcap_writer (outpath_writable w) (Some (f ++ pcap_record max h sb pos af ft)))
                (f ++ pcap_record max h sb pos af ft) eq_refl). cbn [outpath_writable].
    cbn [map List.concat pkt_record]. rewrite app_assoc. reflexivity.
Qed.

(** Writing packets to a fresh writer produces the global header once, followed by the records of the packets in order; when the output cannot be opened, the first packet fails with the runtime error and nothing is written. *)
Theorem pcap_write_sequence max pkts :
  pkts <> [] ->
  pcap_write_all max (mk_pcap_writer true None) pkts
    = Ok (mk_pcap_writer true (Some (pcap_global_header max ++ List.concat (map (pkt_record max) pkts)))) /\
  pcap_write_all max (mk_pcap_writer false None) pkts
    = Err (RuntimeError "scan_net.cpp: cannot open for writing").
Proof.
  destruct pkts as [|[[[[h sb] pos] af] ft] rest]; [congruence|]. intros _. split.
  - cbn [pcap_write_all].
    assert (E : pcap_writepkt max (mk_pcap_writer true None) h sb pos af ft
                = Ok (mk_pcap_writer true
                        (Some (pcap_global_header max ++ pcap_record max h sb pos af ft))))
      by reflexivity.
    rewrite E. cbn [bind].
    rewrite (pcap_write_all_open max
               (mk_pcap_writer true (Some (pcap_global_header max ++ pcap_record max h sb pos af ft)))
               rest (pcap_global_header max ++ pcap_record max h sb pos af ft) eq_refl).
    cbn [outpath_writable map List.concat pkt_record]. rewrite app_assoc. reflexivity.
  - reflexivity.
Qed.

Lemma pcap_write_sequence_witness :
  [(ipv4_hdr, ipv4_page, 100, true, 2048); (ipv4_hdr, ipv4_page, 100, false, 0)] <> [] /\
  pcap_write_all 65535 (mk_pcap_writer true None)
    [(ipv4_hdr, ipv4_page, 100, true, 2048); (ipv4_hdr, ipv4_page, 100, false, 0)]
  = Ok (mk_pcap_writer true (Some (pcap_global_header 65535 ++
         pcap_record 65535 ipv4_hdr ipv4_page 100 true 2048 ++
         pcap_record 65535 ipv4_hdr ipv4_page 100 false 0))).
Proof.
  split; [discriminate|].
  rewrite (proj1 (pcap_write_sequence 65535
    [(ipv4_hdr, ipv4_page, 100, true, 2048); (ipv4_hdr, ipv4_page, 100, false, 0)]
    ltac:(discriminate))).
  cbn [map List.concat pkt_record]. rewrite app_nil_r. reflexivity.
Defined.

(** [pcap_write4] is read back by [le_decode] for values that fit in 32 bits. *)
Lemma le_decode_write4 x : 0 <= x < 2 ^ 32 -> le_decode (pcap_write4 x) = x.
Proof.
  intros Hx. unfold pcap_write4, le_bytes, le_decode. cbn [seq map fold_right Z.of_nat].
  change 255 with (Z.ones 8). rewrite !Z.land_ones by lia.
  rewrite !Z.shiftr_div_pow2 by lia.
  change (2 ^ (8 * 0)) with 1. change (2 ^ 8) with 256.
  change (2 ^ (8 * Z.pos (Pos.of_succ_nat 0))) with 256.
  change (2 ^ (8 * Z.pos (Pos.of_succ_nat 1))) with (256 * 256).
  change (2 ^ (8 * Z.pos (Pos.of_succ_nat 2))) with (256 * 256 * 256).
  rewrite Z.div_1_r. rewrite <- !Z.div_div by lia.
  pose proof (Z.div_mod x 256 ltac:(lia)) as E0.
  pose proof (Z.div_mod (x / 256) 256 ltac:(lia)) as E1.
  pose proof (Z.div_mod (x / 256 / 256) 256 ltac:(lia)) as E2.
  assert (Hq : 0 <= x / 256 / 256 / 256 < 256).
  { rewrite !Z.div_div by lia. split; [apply Z.div_pos; lia|].
    apply Z.div_lt_upper_bound; lia. }
  rewrite (Z.mod_small (x / 256 / 256 / 256)) by exact Hq. lia.
Qed.

Lemma length_write4 x : List.length (pcap_write4 x) = 4%nat.
Proof. reflexivity. Qed.

Lemma length_sbuf_write sb pos len :
  0 <= pos -> 0 <= len -> pos + len <= sb_bufsize sb ->
  List.length (sbuf_write sb pos len) = Z.to_nat len.
Proof.
  intros Hp Hl Hb. unfold sbuf_write. rewrite length_map, length_seq.
  destruct (Z.leb_spec (sb_bufsize sb) pos); f_equal; lia.
Qed.

(** The captured-length field (bytes 8 to 11) of each record [pcap_writepkt] appends equals the number of bytes that follow the 16-byte record header, when the packet lies inside the buffer and its length plus the Ethernet header fits in 32 bits. *)
Theorem pcap_writepkt_incl_len max w h sb pos af ft f :
  fcap w = Some f -> 0 <= cap_len h -> cap_len h + ETHER_HEAD_LEN < 2 ^ 32 ->
  0 <= pos -> pos + cap_len h <= sb_bufsize sb ->
  exists r, pcap_writepkt max w h sb pos af ft
              = Ok (mk_pcap_writer (outpath_writable w) (Some (f ++ r))) /\
            le_decode (firstn 4 (skipn 8 r)) = Z.of_nat (List.length r) - 16.
Proof.
  intros Hf Hc Hmax Hp Hb. exists (pcap_record max h sb pos af ft). split.
  - unfold pcap_writepkt, pcap_record. rewrite Hf. reflexivity.
  - unfold pcap_record.
    set (e := if af && (cap_len h + ETHER_HEAD_LEN <=? max) then ETHER_HEAD_LEN else 0).
    destruct (pcap_write4_shape (seconds h)) as (a1 & a2 & a3 & a4 & E1).
    destruct (pcap_write4_shape (useconds h)) as (b1 & b2 & b3 & b4 & E2).
    destruct (pcap_write4_shape (cap_len h + e)) as (c1 & c2 & c3 & c4 & E3).
    assert (Hd : le_decode [c1; c2; c3; c4] = cap_len h + e).
    { rewrite <- E3. apply le_decode_write4. unfold e, ETHER_HEAD_LEN in *.
      destruct (_ && _); lia. }
    rewrite E1, E2, E3. cbn [app skipn firstn]. rewrite Hd.
    cbn [List.length]. rewrite !length_app, length_write4, length_sbuf_write by lia.
    cbn [length]. unfold e, ETHER_HEAD_LEN in *.
    destruct (_ && _); cbn [List.length repeat app]; rewrite ?length_app; cbn [List.length repeat]; rewrite ?Nat2Z.inj_succ, ?Nat2Z.inj_add, Z2Nat.id by lia; lia.
Qed.

(** The captured-length field of the record for the 60-byte IPv4 packet at
    offset 100 with a synthesized header. *)
Lemma pcap_writepkt_incl_len_witness :
  exists r, pcap_writepkt 65535 (mk_pcap_writer true (Some [])) ipv4_hdr ipv4_page 100 true 2048
              = Ok (mk_pcap_writer true (Some ([] ++ r))) /\
            le_decode (firstn 4 (skipn 8 r)) = Z.of_nat (List.length r) - 16.
Proof.
  apply (pcap_writepkt_incl_len 65535 (mk_pcap_writer true (Some [])) ipv4_hdr ipv4_page 100 true 2048 []);
    unfold ETHER_HEAD_LEN; simpl; first [reflexivity | lia].
Defined.

(** ** Directory scanners and the facebook scanner *)

Lemma find_from_spec l needle i :
  find_from l needle i = -1 \/
  (i <= find_from l needle i /\
   starts_with (skipn (Z.to_nat (find_from l needle i - i)) l) needle = true).
Proof.
  revert i. induction l as [|x l IH]; intros i; cbn [find_from].
  - destruct (starts_with [] needle) eqn:E; [right|left; reflexivity].
    rewrite Z.sub_diag. split; [lia|exact E].
  - destruct (starts_with (x :: l) needle) eqn:E.
    + right. rewrite Z.sub_diag. split; [lia|exact E].
    + destruct (IH (i + 1)) as [H|[H1 H2]]; [left; exact H|right].
      split; [lia|].
      replace (Z.to_nat (find_from l needle (i + 1) - i))
        with (S (Z.to_nat (find_from l needle (i + 1) - (i + 1)))) by lia.
      exact H2.
Qed.

Lemma sbuf_find_spec buf needle i :
  0 <= i ->
  sbuf_find buf needle i = -1 \/
  (i <= sbuf_find buf needle i /\
   starts_with (skipn (Z.to_nat (sbuf_find buf needle i)) buf) needle = true).
Proof.
  intros Hi. unfold sbuf_find.
  destruct (find_from_spec (skipn (Z.to_nat i) buf) needle i) as [H|[H1 H2]]; [left; exact H|].
  right. split; [exact H1|]. rewrite skipn_skipn in H2.
  replace (Z.to_nat (find_from (skipn (Z.to_nat i) buf) needle i - i) + Z.to_nat i)%nat
    with (Z.to_nat (find_from (skipn (Z.to_nat i) buf) needle i)) in H2 by lia.
  exact H2.
Qed.

Lemma ForallOrdPairs_snoc {A} (R : A -> A -> Prop) l v :
  ForallOrdPairs R l -> Forall (fun x => R x v) l -> ForallOrdPairs R (l ++ [v]).
Proof.
  induction l as [|x l IH]; intros H Hf; simpl.
  - constructor; [constructor|constructor].
  - inversion H as [|? ? Hx Hl]; subst. inversion Hf as [|? ? Hxv Hfl]; subst.
    constructor; [|apply IH; assumption].
    apply Forall_app. split; [exact Hx|]. constructor; [exact Hxv|constructor].
Qed.

Lemma facebook_loop_inv fuel buf needle i used out :
  In needle facebook_searches -> 0 <= i -> facebook_inv buf used out ->
  let '(used', out') := facebook_needle_loop fuel buf needle i used out in
  facebook_inv buf used' out'.
Proof.
  revert i used out. induction fuel as [|f IH]; intros i used out Hn Hi Hinv;
    cbn [facebook_needle_loop]; [exact Hinv|].
  destruct (i + 50 <? Z.of_nat (List.length buf)); cbn [negb]; [|exact Hinv].
  destruct (sbuf_find_spec buf needle i Hi) as [Hf|[Hle Hs]].
  - rewrite Hf. exact Hinv.
  - set (location := sbuf_find buf needle i) in *.
    destruct (location <? 1) eqn:Hl; [exact Hinv|]. apply Z.ltb_ge in Hl.
    unfold value_used.
    destruct (existsb _ used) eqn:Ex.
    + apply IH; [exact Hn|unfold window; lia|exact Hinv].
    + apply IH; [exact Hn|unfold window; lia|].
      destruct Hinv as (Ho & Hp & Hh). split; [|split].
      * rewrite Ho, map_app. reflexivity.
      * apply ForallOrdPairs_snoc; [exact Hp|].
        apply Forall_forall. intros o Ho'.
        assert (Hfo : (o - window / 2 <? location) && (o + window / 2 >? location) = false).
        { destruct ((o - window / 2 <? location) && (o + window / 2 >? location)) eqn:E;
            [|reflexivity].
          rewrite <- Ex. symmetry. apply existsb_exists. exists o. split; [exact Ho'|exact E]. } unfold window in Hfo. change (4096 / 2) with 2048 in Hfo.
        unfold far_apart. rewrite Z.gtb_ltb in Hfo.
        destruct (Z.ltb_spec (o - 2048) location), (Z.ltb_spec location (o + 2048));
          cbn [andb] in Hfo; try discriminate; lia.
      * apply Forall_app. split; [exact Hh|]. constructor; [|constructor].
        split; [exact Hl|]. exists needle. split; [exact Hn|exact Hs].
Qed.

(** The windows [scan_facebook] writes are exactly those of a list of offsets, one per recorded hit and in order: every offset is at least 1, one of the searched strings occurs there, and any two of the offsets are at least 2048 bytes apart, so no two windows are centred on the same hit. *)
Theorem scan_facebook_hits buf :
  exists used,
    scan_facebook buf = map (facebook_window (Z.of_nat (List.length buf))) used /\
    ForallOrdPairs far_apart used /\
    Forall (facebook_hit buf) used.
Proof.
  unfold scan_facebook.
  assert (H : forall ns used out, incl ns facebook_searches -> facebook_inv buf used out ->
            let '(used', out') :=
              fold_left (fun '(used, out) needle =>
                           facebook_needle_loop (S (List.length buf)) buf needle 0 used out)
                        ns (used, out) in
            facebook_inv buf used' out').
  { induction ns as [|nd ns IH]; intros used out Hincl Hinv; cbn [fold_left]; [exact Hinv|].
    pose proof (facebook_loop_inv (S (List.length buf)) buf nd 0 used out
                  (Hincl nd (or_introl eq_refl)) ltac:(lia) Hinv) as Hstep.
    destruct (facebook_needle_loop (S (List.length buf)) buf nd 0 used out) as [u o].
    apply IH; [intros x Hx; apply Hincl; right; exact Hx|exact Hstep]. }
  specialize (H facebook_searches [] [] (incl_refl _)
                ltac:(split; [reflexivity|split; constructor])).
  destruct (fold_left _ facebook_searches ([], [])) as [used out].
  destruct H as (Ho & Hp & Hh). exists used. split; [exact Ho|split; assumption].
Qed.

(** A buffer of at most 50 bytes produces no output: the search loop needs [i + 50 < bufsize]. *)
Theorem scan_facebook_short buf :
  (List.length buf <= 50)%nat -> scan_facebook buf = [].
Proof.
  intros Hl. unfold scan_facebook.
  assert (H : forall ns out, fold_left (fun '(used, out) needle =>
                       facebook_needle_loop (S (List.length buf)) buf needle 0 used out)
                    ns ([], out) = ([], out)).
  { induction ns as [|nd ns IH]; intros out; [reflexivity|].
    assert (E : facebook_needle_loop (S (List.length buf)) buf nd 0 [] out = ([], out)).
    { cbn [facebook_needle_loop].
      replace (0 + 50 <? Z.of_nat (List.length buf)) with false
        by (symmetry; apply Z.ltb_ge; lia).
      reflexivity. }
    cbn [fold_left]. cbv beta iota. rewrite E. apply IH. }
  rewrite H. reflexivity.
Qed.

Lemma scan_facebook_short_witness :
  (List.length (repeat 32 50) <= 50)%nat /\ scan_facebook (repeat 32 50) = [].
Proof.
  split; [simpl; lia|]. apply scan_facebook_short. simpl; lia.
Defined.

Lemma ntfs_bases_in fuel ps base b :
  In b (ntfs_bases fuel ps base) -> exists k, 0 <= k /\ b = base + 512 * k /\ b < ps.
Proof.
  revert base. induction fuel as [|f IH]; intros base H; cbn [ntfs_bases] in H; [contradiction|].
  destruct (Z.ltb_spec base ps); [|contradiction].
  destruct H as [<-|H].
  - exists 0. lia.
  - destruct (IH _ H) as (k & Hk & -> & Hb). exists (k + 1). lia.
Qed.

(** Every record [scan_ntfsdirs] writes comes from a 1024-byte candidate starting at a multiple of 512 below the page size and lying inside the buffer; its position is that of the candidate, the candidate starts with the [FILE] magic and has a link count below 10, the record map has more than three entries and the file name is never empty. *)
Theorem ntfs_record_origin dates utf8 sb recs pos fname m :
  scan_ntfsdirs dates utf8 sb = Ok recs -> In (pos, fname, m) recs ->
  exists k, 0 <= k /\ 512 * k < sb_pagesize sb /\ 512 * k + 1024 <= sb_bufsize sb /\
    pos = sb_pos0 sb + 512 * k /\
    get32u (sbuf_sub sb (512 * k) 1024) 0 = Ok NTFS_MFT_MAGIC /\
    (exists nlink, get16u (sbuf_sub sb (512 * k) 1024) 16 = Ok nlink /\ nlink < 10) /\
    (3 < List.length m)%nat /\ fname <> EmptyString.
Proof.
  intros Hs Hin. unfold scan_ntfsdirs in Hs. rewrite ntfs_scan_from_flat in Hs.
  injection Hs as <-. apply in_flat_map in Hin as (b & Hb & Hr).
  destruct (ntfs_bases_in (S (Z.to_nat (sb_pagesize sb / 512))) (sb_pagesize sb) 0 b Hb)
    as (k & Hk & Hbk & Hlt). cbn [Z.add] in Hbk. subst b.
  exists k. unfold candidate_output in Hr.
  destruct (sb_bufsize (sbuf_sub sb (512 * k) 1024) =? 1024) eqn:Hsz; [|contradiction].
  apply Z.eqb_eq in Hsz. unfold sbuf_sub in Hsz. cbn [sb_bufsize] in Hsz.
  destruct (ntfs_candidate dates utf8 (sbuf_sub sb (512 * k) 1024)) as [[r|]|e] eqn:Hc;
    try contradiction.
  destruct Hr as [Hr|[]]. subst r.
  unfold ntfs_candidate in Hc.
  destruct (get32u (sbuf_sub sb (512 * k) 1024) 0) as [magic|e] eqn:Hm; [|discriminate].
  cbn [bind] in Hc. destruct (magic =? NTFS_MFT_MAGIC) eqn:Hmag; cbn [negb] in Hc; [|discriminate].
  apply Z.eqb_eq in Hmag. subst magic.
  destruct (get16u (sbuf_sub sb (512 * k) 1024) 16) as [nl|e] eqn:Hn; [|discriminate].
  cbn [bind] in Hc. destruct (Z.ltb_spec nl 10); cbn [negb] in Hc; [|discriminate].
  repeat match type of Hc with
         | bind ?x _ = _ => destruct x; cbn [bind] in Hc; [|discriminate]
         end.
  match type of Hc with
  | (if ?c then _ else _) = _ => destruct c eqn:H3; [|discriminate]
  end.
  assert (Hp : pos = sb_pos0 sb + 512 * k).
  { remember (sbuf_sub sb (512 * k) 1024) as n eqn:En.
    injection Hc as Hp _ _. rewrite <- Hp, En. reflexivity. }
  injection Hc as _ Hf Hmm. apply Z.ltb_lt in H3.
  split; [lia|]. split; [lia|]. split; [lia|]. split; [lia|].
  split; [reflexivity|]. split; [exists nl; split; [reflexivity|lia]|].
  split; [subst m; lia|].
  subst fname. match goal with |- (if ?c then _ else _) <> _ => destruct c eqn:Ef end.
  - discriminate.
  - intros E. rewrite E in Ef. discriminate.
Qed.

Lemma ntfs_record_origin_witness :
  exists recs pos fname m,
    scan_ntfsdirs (fun _ => "t"%string) (fun _ => "f"%string) mft_page = Ok recs /\
    In (pos, fname, m) recs /\
    pos = 4096 /\ (3 < List.length m)%nat.
Proof.
  assert (Hs : exists r, scan_ntfsdirs (fun _ => "t"%string) (fun _ => "f"%string) mft_page = Ok [r]).
  { eexists. vm_compute. reflexivity. }
  destruct Hs as [[[pos fname] m] Hs].
  exists [(pos, fname, m)], pos, fname, m. split; [exact Hs|]. split; [left; reflexivity|].
  destruct (ntfs_record_origin _ _ _ _ pos fname m Hs (or_introl eq_refl))
    as (k & Hk & Hp & Hb & Hpos & _ & _ & Hm & _).
  cbn [sb_pagesize sb_bufsize sb_pos0 mft_page] in *.
  split; [lia|exact Hm].
Defined.

Section FatProofs.

Variable fatYear : Z -> Z.
Variable fatDateToISODate : Z -> Z -> string.
Variable cfg : fat_config.

Lemma fat_classify_prefix fuel sector k last ret1 vyc l r v :
  0 <= k -> last < k -> last < 16 ->
  (forall j, 0 <= j < k -> valid_or_lfn (valid_fat_directory_entry cfg (sbuf_bytes (fat_entry sector j)))) ->
  fat_classify fatYear cfg fuel sector k last ret1 vyc = (l, r, v) ->
  l < 16 /\
  forall j, 0 <= j < l -> valid_or_lfn (valid_fat_directory_entry cfg (sbuf_bytes (fat_entry sector j))).
Proof.
  revert k last ret1 vyc. induction fuel as [|f IH]; intros k last ret1 vyc Hk Hl H16 Hpre H;
    cbn [fat_classify] in H.
  - injection H as <- _ _. split; [lia|]. intros j Hj. apply Hpre. lia.
  - destruct (Z.ltb_spec k 16) as [Hk16|Hk16]; cbn [negb] in H.
    + destruct (valid_fat_directory_entry cfg (sbuf_bytes (fat_entry sector k))) eqn:E.
      * injection H as <- _ _. split; [lia|]. intros j Hj. apply Hpre. lia.
      * refine (IH (k + 1) k _ _ _ _ _ _ H); [lia|lia|lia|].
        intros j Hj. destruct (Z.eq_dec j k) as [->|Hne]; [left; exact E|apply Hpre; lia].
      * refine (IH (k + 1) k _ _ _ _ _ _ H); [lia|lia|lia|].
        intros j Hj. destruct (Z.eq_dec j k) as [->|Hne]; [right; exact E|apply Hpre; lia].
      * injection H as <- _ _. split; [lia|]. intros j Hj. apply Hpre. lia.
      * injection H as <- _ _. split; [lia|]. intros j Hj. apply Hpre. lia.
    + injection H as <- _ _. split; [lia|]. intros j Hj. apply Hpre. lia.
Qed.

Lemma fat_write_entries_in fuel sector k last rec :
  In rec (fat_write_entries fatDateToISODate cfg fuel sector k last) ->
  exists j, k <= j <= last /\ j < 16 /\
    valid_fat_directory_entry cfg (sbuf_bytes (fat_entry sector j)) = VALID_DENTRY /\
    rec = (sb_pos0 (fat_entry sector j), fat_filename (sbuf_bytes (fat_entry sector j)),
           fat_map fatDateToISODate (sbuf_bytes (fat_entry sector j))).
Proof.
  revert k. induction fuel as [|f IH]; intros k H; cbn [fat_write_entries] in H; [contradiction|].
  destruct ((k <=? last) && (k <? 16)) eqn:Hc; [|contradiction].
  apply andb_true_iff in Hc as [H1 H2]. apply Z.leb_le in H1. apply Z.ltb_lt in H2.
  apply in_app_or in H as [H|H].
  - destruct (valid_fat_directory_entry cfg (sbuf_bytes (fat_entry sector k))) eqn:E;
      try contradiction.
    destruct H as [<-|[]]. exists k. split; [lia|]. split; [lia|]. split; [exact E|reflexivity].
  - destruct (IH _ H) as (j & Hj & Hj16 & Hv & ->). exists j. split; [lia|]. auto.
Qed.

Lemma fat_sector_output_in sector rec :
  In rec (fat_sector_output fatYear fatDateToISODate cfg sector) ->
  exists j, 0 <= j < 16 /\
    valid_fat_directory_entry cfg (sbuf_bytes (fat_entry sector j)) = VALID_DENTRY /\
    (forall i, 0 <= i < j ->
       valid_or_lfn (valid_fat_directory_entry cfg (sbuf_bytes (fat_entry sector i)))) /\
    rec = (sb_pos0 (fat_entry sector j), fat_filename (sbuf_bytes (fat_entry sector j)),
           fat_map fatDateToISODate (sbuf_bytes (fat_entry sector j))).
Proof.
  unfold fat_sector_output. intros H.
  destruct (fat_classify fatYear cfg 16 sector 0 (-1) 0 0) as [[l r] v] eqn:Ec.
  destruct (fat_classify_prefix 16 sector 0 (-1) 0 0 l r v ltac:(lia) ltac:(lia) ltac:(lia)
              ltac:(intros; lia) Ec) as [Hl16 Hpre].
  destruct ((r =? 1) && (v =? 0)); [contradiction|].
  destruct ((l =? 1) && (v =? 0)); [contradiction|].
  destruct ((0 <=? l) && (0 <? r)); [|contradiction].
  destruct (fat_write_entries_in _ _ _ _ _ H) as (j & Hj & Hj16 & Hv & ->).
  exists j. split; [lia|]. split; [exact Hv|]. split; [|reflexivity].
  intros i Hi. apply Hpre. lia.
Qed.

Lemma fat_scan_from_in fuel sb base rec :
  0 <= base ->
  In rec (fat_scan_from fatYear fatDateToISODate cfg fuel sb base) ->
  exists s, 0 <= s /\ base + 512 * s < sb_pagesize sb /\
    sb_bufsize (sbuf_sub sb (base + 512 * s) 512) = 512 /\
    In rec (fat_sector_output fatYear fatDateToISODate cfg (sbuf_sub sb (base + 512 * s) 512)).
Proof.
  revert base. induction fuel as [|f IH]; intros base Hb H; cbn [fat_scan_from] in H;
    [contradiction|].
  destruct (Z.ltb_spec base (sb_pagesize sb)) as [Hlt|]; cbn [negb] in H; [|contradiction].
  destruct (Z.ltb_spec (sb_bufsize (sbuf_sub sb base 512)) 512) as [|Hge]; [contradiction|].
  apply in_app_or in H as [H|H].
  - exists 0. rewrite Z.mul_0_r, Z.add_0_r. split; [lia|]. split; [lia|]. split; [|exact H].
    revert Hge. unfold sbuf_sub. cbn [sb_bufsize]. lia.
  - destruct (IH (base + 512) ltac:(lia) H) as (s & Hs & Hlt' & Hsz & Hin).
    exists (s + 1). replace (base + 512 * (s + 1)) with (base + 512 + 512 * s) by lia.
    split; [lia|]. split; [lia|]. split; assumption.
Qed.

End FatProofs.

(** Every record [scan_fatdirs] writes is a [VALID_DENTRY] entry of a complete 512-byte sector that starts at a multiple of 512 below the page size; it lies at [pos0 + 512 s + 32 j], every earlier entry of its sector is [VALID_DENTRY] or [VALID_LFN], and the printed file name is the one built from that entry. *)
Theorem scan_fatdirs_records fatYear fatDateToISODate cfg sb pos fname m :
  In (pos, fname, m) (scan_fatdirs fatYear fatDateToISODate cfg sb) ->
  exists s j, 0 <= s /\ 512 * s < sb_pagesize sb /\ 512 * s + 512 <= sb_bufsize sb /\
    0 <= j < 16 /\ pos = sb_pos0 sb + 512 * s + 32 * j /\
    valid_fat_directory_entry cfg (sbuf_bytes (fat_entry (sbuf_sub sb (512 * s) 512) j))
      = VALID_DENTRY /\
    (forall i, 0 <= i < j ->
       valid_or_lfn (valid_fat_directory_entry cfg
                       (sbuf_bytes (fat_entry (sbuf_sub sb (512 * s) 512) i)))) /\
    fname = fat_filename (sbuf_bytes (fat_entry (sbuf_sub sb (512 * s) 512) j)).
Proof.
  intros H. unfold scan_fatdirs in H.
  destruct (fat_scan_from_in fatYear fatDateToISODate cfg _ sb 0 _ ltac:(lia) H)
    as (s & Hs & Hlt & Hsz & Hin).
  rewrite Z.add_0_l in Hlt, Hsz, Hin.
  destruct (fat_sector_output_in fatYear fatDateToISODate cfg _ _ Hin)
    as (j & Hj & Hv & Hpre & Hr).
  pose proof (f_equal (fun r => fst (fst r)) Hr) as Hp.
  pose proof (f_equal (fun r => snd (fst r)) Hr) as Hf. cbn [fst snd] in Hp, Hf.
  assert (Hpos : sb_pos0 (fat_entry (sbuf_sub sb (512 * s) 512) j) = sb_pos0 sb + 512 * s + 32 * j).
  { unfold fat_entry, sbuf_sub. cbn [sb_pos0]. lia. }
  exists s, j. split; [exact Hs|]. split; [exact Hlt|]. split.
  { revert Hsz. unfold sbuf_sub. cbn [sb_bufsize]. lia. }
  split; [exact Hj|]. split.
  { rewrite Hp. exact Hpos. }
  split; [exact Hv|]. split; [exact Hpre|exact Hf].
Qed.

Lemma scan_fatdirs_records_witness :
  exists m, In (8192, "LABEL."%string, m)
              (scan_fatdirs (fun _ => 0) (fun _ _ => EmptyString) (default_fat_config 2025)
                            fat_label_page) /\
  exists s j, 0 <= s /\ 0 <= j < 16 /\ 8192 = sb_pos0 fat_label_page + 512 * s + 32 * j.
Proof.
  assert (Hc : exists m, scan_fatdirs (fun _ => 0) (fun _ _ => EmptyString) (default_fat_config 2025)
                           fat_label_page = [(8192, "LABEL."%string, m)]).
  { eexists. vm_compute. reflexivity. }
  destruct Hc as [m Hm]. exists m.
  assert (Hin : In (8192, "LABEL."%string, m)
                  (scan_fatdirs (fun _ => 0) (fun _ _ => EmptyString) (default_fat_config 2025)
                                fat_label_page)) by (rewrite Hm; left; reflexivity).
  split; [exact Hin|].
  destruct (scan_fatdirs_records _ _ _ _ _ _ _ Hin) as (s & j & Hs & _ & _ & Hj & Hp & _).
  exists s, j. split; [exact Hs|]. split; [exact Hj|exact Hp].
Defined.

Lemma fat_name_char_ok_lower c : is_lower c = true -> fat_name_char_ok c = false.
Proof.
  unfold is_lower, fat_name_char_ok, isupper, isdigit. intros H.
  apply andb_true_iff in H as [H1 H2]. apply Z.leb_le in H1. apply Z.leb_le in H2.
  cbn [existsb].
  repeat rewrite (proj2 (Z.eqb_neq _ _)) by lia.
  destruct (Z.leb_spec 65 c), (Z.leb_spec c 90), (Z.leb_spec 48 c), (Z.leb_spec c 57);
    try lia; reflexivity.
Qed.

Lemma fat_chars_ok_lower l i :
  is_lower (nth i l 0) = true ->
  (forall j, (j < i)%nat -> nth j l 0 <> 0 /\ nth j l 0 <> 32) ->
  fat_chars_ok l = false.
Proof.
  revert i. induction l as [|c l IH]; intros i Hi Hpre.
  - destruct i; discriminate.
  - cbn [fat_chars_ok]. destruct i as [|i].
    + cbn [nth] in Hi. unfold is_lower in Hi.
      apply andb_true_iff in Hi as [H1 H2]. apply Z.leb_le in H1. apply Z.leb_le in H2.
      rewrite (proj2 (Z.eqb_neq c 0)), (proj2 (Z.eqb_neq c 32)) by lia. cbn [orb].
      rewrite fat_name_char_ok_lower; [reflexivity|].
      unfold is_lower. apply andb_true_iff. split; apply Z.leb_le; lia.
    + destruct (Hpre 0%nat ltac:(lia)) as [H0 H32]. cbn [nth] in H0, H32.
      rewrite (proj2 (Z.eqb_neq c 0)), (proj2 (Z.eqb_neq c 32)) by assumption. cbn [orb].
      destruct (fat_name_char_ok c); [|reflexivity].
      apply (IH i Hi). intros j Hj. apply (Hpre (S j)). lia.
Qed.

Lemma zlist_eqb_true l1 l2 : zlist_eqb l1 l2 = true -> l1 = l2.
Proof.
  revert l2. induction l1 as [|a l1 IH]; intros [|b l2] H; cbn [zlist_eqb] in H;
    try discriminate; [reflexivity|].
  apply andb_true_iff in H as [H1 H2]. apply Z.eqb_eq in H1. subst b. f_equal. apply IH, H2.
Qed.

Lemma valid_fat_dentry_name_lower name ext i :
  (i < 8)%nat -> is_lower (nth i name 0) = true ->
  (forall j, (j < i)%nat -> nth j name 0 <> 0 /\ nth j name 0 <> 32) ->
  valid_fat_dentry_name name ext = false.
Proof.
  intros Hi8 Hi Hpre. unfold valid_fat_dentry_name.
  assert (Hnot : forall L, (forall k, (k < 8)%nat -> nth k L 0 = 46 \/ nth k L 0 = 32) ->
                 (forall k, (0 < k)%nat -> (k < 8)%nat -> nth k L 0 = 32 \/ (k = 1%nat /\ nth k L 0 = 46)) ->
                 zlist_eqb name L = false).
  { intros L HL HL1. destruct (zlist_eqb name L) eqn:E; [|reflexivity]. exfalso.
    apply zlist_eqb_true in E. subst L.
    unfold is_lower in Hi. apply andb_true_iff in Hi as [H1 H2].
    apply Z.leb_le in H1. apply Z.leb_le in H2.
    destruct (HL i Hi8) as [He|He]; lia. }
  rewrite (Hnot [46; 32; 32; 32; 32; 32; 32; 32]).
  2: { intros k Hk. do 8 (destruct k as [|k]; [cbn; lia|]). lia. }
  2: { intros k Hk0 Hk. do 8 (destruct k as [|k]; [cbn; lia|]). lia. }
  rewrite (Hnot [46; 46; 32; 32; 32; 32; 32; 32]).
  2: { intros k Hk. do 8 (destruct k as [|k]; [cbn; lia|]). lia. }
  2: { intros k Hk0 Hk. do 8 (destruct k as [|k]; [cbn; lia|]). lia. }
  cbn [andb].
  destruct (forallb FATFS_IS_83_NAME name); cbn [negb]; [|reflexivity].
  destruct (forallb FATFS_IS_83_EXT ext); cbn [negb]; [|reflexivity].
  rewrite (fat_chars_ok_lower name i Hi Hpre). reflexivity.
Qed.

Lemma nth_firstn_lt (n : nat) (l : list Z) j :
  (j < n)%nat -> nth j (firstn n l) 0 = nth j l 0.
Proof.
  revert l j. induction n as [|n IH]; intros l j Hj; [lia|].
  destruct l as [|x l]; [destruct j; reflexivity|].
  destruct j as [|j]; [reflexivity|]. cbn [firstn nth]. apply IH. lia.
Qed.

Lemma valid_entry_dentry cfg b :
  valid_fat_directory_entry cfg b = VALID_DENTRY ->
  byte_at b 0 <> 0 /\ valid_fat_dentry_name (firstn 8 b) (firstn 3 (skipn 8 b)) = true.
Proof.
  intros H. unfold valid_fat_directory_entry in H. cbv zeta in H.
  repeat match type of H with
         | context [if ?c then _ else _] =>
             let E := fresh "E" in destruct c eqn:E
         end; try discriminate;
  (split; [apply Z.eqb_neq; assumption | apply negb_false_iff; assumption]).
Qed.

Lemma valid_entry_last cfg b :
  valid_fat_directory_entry cfg b = VALID_LAST_DENTRY -> byte_at b 0 = 0.
Proof.
  intros H. unfold valid_fat_directory_entry in H. cbv zeta in H.
  repeat match type of H with
         | context [if ?c then _ else _] =>
             let E := fresh "E" in destruct c eqn:E
         end; try discriminate.
  apply Z.eqb_eq. assumption.
Qed.

(** An entry whose 8.3 name has a lowercase letter before its first space or NUL is never [VALID_DENTRY] nor [VALID_LAST_DENTRY]. *)
Theorem fat_lowercase_name_rejected cfg b i :
  (i < 8)%nat -> is_lower (byte_at b i) = true ->
  (forall j, (j < i)%nat -> byte_at b j <> 0 /\ byte_at b j <> 32) ->
  valid_fat_directory_entry cfg b <> VALID_DENTRY /\
  valid_fat_directory_entry cfg b <> VALID_LAST_DENTRY.
Proof.
  intros Hi8 Hi Hpre.
  assert (H0 : byte_at b 0 <> 0).
  { destruct i as [|i].
    - unfold is_lower in Hi. apply andb_true_iff in Hi as [H1 _]. apply Z.leb_le in H1. lia.
    - apply (Hpre 0%nat). lia. }
  split; intros H.
  - apply valid_entry_dentry in H as [_ Hn].
    rewrite (valid_fat_dentry_name_lower (firstn 8 b) (firstn 3 (skipn 8 b)) i Hi8) in Hn;
      [discriminate| |].
    + rewrite nth_firstn_lt by exact Hi8. exact Hi.
    + intros j Hj. rewrite nth_firstn_lt by lia. apply Hpre. exact Hj.
  - apply valid_entry_last in H. contradiction.
Qed.

Lemma fat_lowercase_name_rejected_witness :
  valid_fat_directory_entry (default_fat_config 2025) lowercase_entry <> VALID_DENTRY /\
  valid_fat_directory_entry (default_fat_config 2025) lowercase_entry <> VALID_LAST_DENTRY.
Proof.
  apply (fat_lowercase_name_rejected (default_fat_config 2025) lowercase_entry 2).
  - lia.
  - reflexivity.
  - intros j Hj. do 2 (destruct j as [|j]; [cbn; lia|]). lia.
Defined.

(** On an attribute byte, [count_bits] returns the number of set bits. *)
Theorem count_bits_byte x : 0 <= x < 256 -> count_bits x = bits_set 8 x.
Proof.
  intros Hx.
  assert (H : forallb (fun n => count_bits (Z.of_nat n) =? bits_set 8 (Z.of_nat n)) (seq 0 256)
              = true) by (vm_compute; reflexivity).
  rewrite forallb_forall in H.
  specialize (H (Z.to_nat x) ltac:(apply in_seq; lia)).
  rewrite Z2Nat.id in H by lia. apply Z.eqb_eq, H.
Qed.

Lemma count_bits_byte_witness : 0 <= 171 < 256 /\ count_bits 171 = 5.
Proof.
  split; [lia|]. rewrite (count_bits_byte 171 ltac:(lia)). reflexivity.
Defined.
